(** * slack-tools: token lifecycle, track polling and profile rotation

    A shallow embedding of the TypeScript sources

      - [utils.ts] and [utils/helper.ts]: [getRandomIndex];
      - [utils/slack.ts]: [updateSlackPhoto], [updateSlackStatus],
        [generateRandomString], [generateCodeChallenge];
      - [animate_profile_pic.ts]: [cycleProfile];
      - [display_current_spotify_track.ts]: the token store, the PKCE
        routes, the now-playing poll and the periodic update.

    The scripts are asynchronous JavaScript that talk to the outside world
    through [fetch], [Date.now], [Math.random] and the console.  They are
    embedded as functions in a state-and-exception monad over a [World]:
    the module-level variables of the script (its store), counters into
    the oracles of a [Runtime] that answer the outside world's questions,
    and the trace of network requests and console lines produced so far. *)

From Stdlib Require Import ZArith List String Ascii Bool Lia.
From Stdlib Require Import DecimalString.
Import ListNotations.

Local Open Scope string_scope.
Local Open Scope Z_scope.
Set Warnings "-register-all".

(* ===================================================================== *)
(** ** JavaScript values *)
(* ===================================================================== *)

Module JS.

(** Numbers.  The scripts compute with millisecond timestamps, token
    lifetimes and array indices; a number is an integer or [NaN]
    (fractions and infinities are left out). *)
Inductive num : Type :=
| NaN
| Fin (z : Z).

(** A value: what a variable typed [any] may hold.  Whatever
    [response.json()] yields is one of these without [VUndefined]. *)
Inductive value : Type :=
| VUndefined
| VNull
| VBool (b : bool)
| VNum (n : num)
| VStr (s : string)
| VArr (elems : list value)
| VObj (props : list (string * value)).

(** What can be thrown. *)
Inductive exn : Type :=
| TypeError (what : string)
| SyntaxError
| NetworkError
| JsError (message : string).

Definition num_add (a b : num) : num :=
  match a, b with
  | Fin x, Fin y => Fin (x + y)
  | _, _ => NaN
  end.

Definition num_mul (a b : num) : num :=
  match a, b with
  | Fin x, Fin y => Fin (x * y)
  | _, _ => NaN
  end.

(** [a > b]; any comparison with [NaN] is false. *)
Definition num_gt (a b : num) : bool :=
  match a, b with
  | Fin x, Fin y => y <? x
  | _, _ => false
  end.

(** ToBoolean. *)
Definition truthy (v : value) : bool :=
  match v with
  | VUndefined | VNull => false
  | VBool b => b
  | VNum NaN => false
  | VNum (Fin z) => negb (z =? 0)
  | VStr s => negb (s =? "")%string
  | VArr _ | VObj _ => true
  end.

Definition nullish (v : value) : bool :=
  match v with
  | VUndefined | VNull => true
  | _ => false
  end.

(** [a || b] *)
Definition js_or (a b : value) : value := if truthy a then a else b.

(** [a && b] *)
Definition js_and (a b : value) : value := if truthy a then b else a.

(** Strict equality with [null]: [v === null]. *)
Definition is_null (v : value) : bool :=
  match v with
  | VNull => true
  | _ => false
  end.

Definition string_of_Z (z : Z) : string := NilZero.string_of_int (Z.to_int z).

(** One element of [Array.prototype.join]: [undefined] and [null]
    contribute the empty string. *)
Definition join_piece (to_s : value -> string) (e : value) : string :=
  match e with
  | VUndefined | VNull => ""
  | _ => to_s e
  end.

(** ToString, as applied by template literals, [join] and
    [URLSearchParams]. *)
Fixpoint to_string (v : value) : string :=
  match v with
  | VUndefined => "undefined"
  | VNull => "null"
  | VBool true => "true"
  | VBool false => "false"
  | VNum NaN => "NaN"
  | VNum (Fin z) => string_of_Z z
  | VStr s => s
  | VArr l => String.concat "," (map (join_piece to_string) l)
  | VObj _ => "[object Object]"
  end.

(** [arr.join(sep)] on the elements of an array. *)
Definition join (sep : string) (l : list value) : string :=
  String.concat sep (map (join_piece to_string) l).

(** Own data property [k] of an object literal or of a parsed JSON
    object (whose keys are distinct). *)
Fixpoint assoc (k : string) (props : list (string * value)) : value :=
  match props with
  | [] => VUndefined
  | (k', v) :: rest => if (k =? k')%string then v else assoc k rest
  end.

(** [v.k] for the property names the scripts read (none of them is a
    member of a prototype, such as [length]): a [TypeError] on
    [undefined] and [null], the own property on an object, [undefined]
    on anything else. *)
Definition get_prop (v : value) (k : string) : exn + value :=
  match v with
  | VUndefined => inl (TypeError ("Cannot read properties of undefined (reading '" ++ k ++ "')"))
  | VNull => inl (TypeError ("Cannot read properties of null (reading '" ++ k ++ "')"))
  | VObj props => inr (assoc k props)
  | _ => inr VUndefined
  end.

(** [v?.k] *)
Definition opt_prop (v : value) (k : string) : value :=
  match v with
  | VObj props => assoc k props
  | _ => VUndefined
  end.

(** [v[0]] *)
Definition get_first (v : value) : exn + value :=
  match v with
  | VUndefined => inl (TypeError "Cannot read properties of undefined (reading '0')")
  | VNull => inl (TypeError "Cannot read properties of null (reading '0')")
  | VArr [] => inr VUndefined
  | VArr (e :: _) => inr e
  | VObj props => inr (assoc "0" props)
  | VStr EmptyString => inr VUndefined
  | VStr (String c _) => inr (VStr (String c EmptyString))
  | _ => inr VUndefined
  end.

Section Coercions.
(** The runtime's StringToNumber, which the model leaves open. *)
Variable StringToNumber : string -> num.

(** ToNumber: objects and arrays go through their string form. *)
Definition to_number (v : value) : num :=
  match v with
  | VUndefined => NaN
  | VNull => Fin 0
  | VBool true => Fin 1
  | VBool false => Fin 0
  | VNum n => n
  | VStr s => StringToNumber s
  | VArr _ | VObj _ => StringToNumber (to_string v)
  end.
End Coercions.

End JS.

(* ===================================================================== *)
(** ** The outside world and the monad of the scripts *)
(* ===================================================================== *)

Module Eff.
Import JS.

(** Body of an outgoing request. *)
Inductive ReqBody : Type :=
| NoBody
| UrlEncoded (params : list (string * string))
| JsonText (v : value)
| FormData (parts : list (string * string)).

Record FetchRequest : Type := {
  url : string;
  method : string;
  headers : list (string * string);
  body : ReqBody
}.

(** An HTTP response as the scripts look at it: its status, and what
    [json()], [text()] and [blob()] resolve to ([None]: the promise
    rejects). *)
Record HttpResponse : Type := {
  status : Z;
  json_body : option value;
  text_body : option string;
  blob_body : option string
}.

(** [response.ok] *)
Definition ok (r : HttpResponse) : bool :=
  (200 <=? status r) && (status r <=? 299).

(** How a [fetch] promise settles. *)
Inductive FetchOutcome : Type :=
| Rejects
| Resolves (r : HttpResponse).

(** The oracles.  [clock k] is the reading of the [k]-th call of
    [Date.now()]; [net k req] settles the [k]-th [fetch] of the run;
    [rnd k n] is the value of [Math.floor(Math.random() * n)] at the
    [k]-th call of [Math.random()].  The remaining fields are pure
    functions of the platform that the model does not look into. *)
Record Runtime : Type := {
  clock : nat -> Z;
  net : nat -> FetchRequest -> FetchOutcome;
  rnd : nat -> Z -> Z;
  StringToNumber : string -> num;
  encodeBase64 : string -> string;
  sha256_base64 : string -> string;
  encodeParams : list (string * string) -> string
}.

Inductive Level : Type := Log | Warn | Error.

(** The store [S] of a script, the number of clock readings and random
    draws taken so far, the requests issued and the console lines
    written (oldest first; only the leading text of a console call is
    kept). *)
Record World (S : Type) : Type := mkWorld {
  store : S;
  clock_reads : nat;
  random_draws : nat;
  calls : list FetchRequest;
  console : list (Level * string)
}.
Arguments mkWorld {S}.
Arguments store {S}.
Arguments clock_reads {S}.
Arguments random_draws {S}.
Arguments calls {S}.
Arguments console {S}.

(** How a computation ends: with a value, with an exception, or not at
    all within the fuel it was given. *)
Inductive outcome (A : Type) : Type :=
| Ret (a : A)
| Throw (e : exn)
| Diverge.
Arguments Ret {A}.
Arguments Throw {A}.
Arguments Diverge {A}.

Definition M (S A : Type) : Type := World S -> outcome A * World S.

Section Monad.
Context {S : Type}.

Definition ret {A} (a : A) : M S A := fun w => (Ret a, w).

Definition bind {A B} (m : M S A) (k : A -> M S B) : M S B :=
  fun w =>
    match m w with
    | (Ret a, w') => k a w'
    | (Throw e, w') => (Throw e, w')
    | (Diverge, w') => (Diverge, w')
    end.

Definition throw {A} (e : exn) : M S A := fun w => (Throw e, w).

Definition diverge {A} : M S A := fun w => (Diverge, w).

(** [try { body } catch (error) { handler }].  What [body] did to the
    world before it threw stays done. *)
Definition try_catch {A} (body : M S A) (handler : exn -> M S A) : M S A :=
  fun w =>
    match body w with
    | (Throw e, w') => handler e w'
    | r => r
    end.

Definition get_store : M S S := fun w => (Ret (store w), w).

Definition modify_store (f : S -> S) : M S unit :=
  fun w => (Ret tt, mkWorld (f (store w)) (clock_reads w) (random_draws w)
                            (calls w) (console w)).

(** [console.log], [console.warn], [console.error] *)
Definition say (l : Level) (text : string) : M S unit :=
  fun w => (Ret tt, mkWorld (store w) (clock_reads w) (random_draws w)
                            (calls w) (console w ++ [(l, text)])%list).

(** A property read or an index read that may throw. *)
Definition lift {A} (r : exn + A) : M S A :=
  match r with
  | inl e => throw e
  | inr a => ret a
  end.

Variable rt : Runtime.

(** [Date.now()] *)
Definition date_now : M S Z :=
  fun w => (Ret (clock rt (clock_reads w)),
            mkWorld (store w) (Datatypes.S (clock_reads w)) (random_draws w)
                    (calls w) (console w)).

(** [Math.floor(Math.random() * n)] *)
Definition random_below (n : Z) : M S Z :=
  fun w => (Ret (rnd rt (random_draws w) n),
            mkWorld (store w) (clock_reads w) (Datatypes.S (random_draws w))
                    (calls w) (console w)).

(** Calling [fetch(...)]: the request leaves, and the promise that
    comes back is already bound to the way it will settle. *)
Definition fetch_start (req : FetchRequest) : M S FetchOutcome :=
  fun w => (Ret (net rt (List.length (calls w)) req),
            mkWorld (store w) (clock_reads w) (random_draws w)
                    (calls w ++ [req])%list (console w)).

(** [await] on a fetch promise. *)
Definition await_fetch (p : FetchOutcome) : M S HttpResponse :=
  match p with
  | Rejects => throw NetworkError
  | Resolves r => ret r
  end.

(** [await fetch(...)] *)
Definition fetch (req : FetchRequest) : M S HttpResponse :=
  bind (fetch_start req) await_fetch.

(** [await response.json()] *)
Definition resp_json (r : HttpResponse) : M S value :=
  match json_body r with
  | Some v => ret v
  | None => throw SyntaxError
  end.

(** [await response.blob()] *)
Definition resp_blob (r : HttpResponse) : M S string :=
  match blob_body r with
  | Some b => ret b
  | None => throw (TypeError "body stream")
  end.

(** [await response.text()] *)
Definition resp_text (r : HttpResponse) : M S string :=
  match text_body r with
  | Some t => ret t
  | None => throw (TypeError "body stream")
  end.
End Monad.

Declare Scope script_scope.
Delimit Scope script_scope with script.
Notation "x <- m ;; k" := (bind m (fun x => k))
  (at level 61, m at next level, right associativity) : script_scope.
Notation "m ;; k" := (bind m (fun _ => k))
  (at level 61, right associativity) : script_scope.

End Eff.

(* ===================================================================== *)
(** ** utils/slack.ts *)
(* ===================================================================== *)

Module Slack.
Import JS Eff.
Local Open Scope script_scope.

(** [{ text: string; emoji: string }] *)
Record Status : Type := { text : string; emoji : string }.

Section Slack.
Context {S : Type}.
Variable rt : Runtime.

(** [fetch(image)] *)
Definition image_request (image : value) : FetchRequest :=
  {| url := to_string image; method := "GET"; headers := []; body := NoBody |}.

Definition setPhoto_request (token imageBlob : string) : FetchRequest :=
  {| url := "https://slack.com/api/users.setPhoto";
     method := "POST";
     headers := [("Authorization", "Bearer " ++ token)];
     body := FormData [("image", imageBlob)] |}.

Definition setStatus_request (token : string) (status : Status) : FetchRequest :=
  {| url := "https://slack.com/api/users.profile.set";
     method := "POST";
     headers := [("Authorization", "Bearer " ++ token);
                 ("Content-Type", "application/json")];
     body := JsonText
               (VObj [("profile",
                       VObj [("status_text", VStr (text status));
                             ("status_emoji", VStr (emoji status));
                             ("status_expiration", VNum (Fin 0))])]) |}.

(** [if (!data.ok) throw new Error(data.error || fallback)] *)
Definition check_ok (data : value) (fallback : string) : M S unit :=
  ok_ <- lift (get_prop data "ok") ;;
  if negb (truthy ok_) then
    err <- lift (get_prop data "error") ;;
    throw (JsError (to_string (js_or err (VStr fallback))))
  else ret tt.

(** [updateSlackPhoto] runs up to its first [await] as soon as it is
    called: the image request leaves at once.  [updateSlackPhoto_resume]
    is the rest of its body, from the moment that promise settles. *)
Definition updateSlackPhoto_start (image : value) : M S FetchOutcome :=
  fetch_start rt (image_request image).

Definition updateSlackPhoto_resume (image : value) (token : string)
           (pending : FetchOutcome) : M S bool :=
  try_catch
    (imageResponse <- await_fetch pending ;;
     imageBlob <- resp_blob imageResponse ;;
     response <- fetch rt (setPhoto_request token imageBlob) ;;
     data <- resp_json response ;;
     check_ok data "Failed to update profile picture" ;;
     say Log ("Successfully updated profile picture to: " ++ to_string image) ;;
     ret true)
    (fun error => say Error "Error updating profile picture:" ;; ret false).

Definition updateSlackPhoto (image : value) (token : string) : M S bool :=
  pending <- updateSlackPhoto_start image ;;
  updateSlackPhoto_resume image token pending.

(** [updateSlackStatus] likewise.  Its argument is [None] when the
    caller passes [undefined] (an array read out of range): building
    the request body then throws inside the [try], before any request
    leaves. *)
Definition updateSlackStatus_start (status : option Status) (token : string)
  : M S (option (Status * FetchOutcome)) :=
  match status with
  | None => ret None
  | Some st => p <- fetch_start rt (setStatus_request token st) ;; ret (Some (st, p))
  end.

Definition updateSlackStatus_resume (pending : option (Status * FetchOutcome))
  : M S bool :=
  try_catch
    match pending with
    | None => throw (TypeError "Cannot read properties of undefined (reading 'text')")
    | Some (st, p) =>
        response <- await_fetch p ;;
        data <- resp_json response ;;
        check_ok data "Failed to update status" ;;
        say Log ("Successfully updated status to: " ++ text st ++ " " ++ emoji st) ;;
        ret true
    end
    (fun error => say Error "Error updating status:" ;; ret false).

Definition updateSlackStatus (status : option Status) (token : string) : M S bool :=
  pending <- updateSlackStatus_start status token ;;
  updateSlackStatus_resume pending.

(** [possible.charAt(i)]: the empty string out of range. *)
Definition charAt (s : string) (i : Z) : string :=
  if i <? 0 then ""
  else match String.get (Z.to_nat i) s with
       | Some c => String c EmptyString
       | None => ""
       end.

Definition possible : string :=
  "ABCDEFGHIJKLMNOPQRSTUVWXYZabcdefghijklmnopqrstuvwxyz0123456789".

(** [generateRandomString(length)]: one draw per character. *)
Fixpoint generateRandomString (length : nat) : M S string :=
  match length with
  | O => ret ""
  | Datatypes.S n =>
      i <- random_below rt (Z.of_nat (String.length possible)) ;;
      rest <- generateRandomString n ;;
      ret (charAt possible i ++ rest)
  end.

(** [generateCodeChallenge]: the base64url form of the SHA-256 digest
    of the verifier, which [sha256_base64] of the runtime stands for. *)
Definition generateCodeChallenge (codeVerifier : string) : M S string :=
  ret (sha256_base64 rt codeVerifier).
End Slack.

End Slack.

(* ===================================================================== *)
(** ** utils/helper.ts and utils.ts: getRandomIndex *)
(* ===================================================================== *)

(** [array[i]]: [None] stands for [undefined]. *)
Definition index_at {A : Type} (l : list A) (i : Z) : option A :=
  if i <? 0 then None else nth_error l (Z.to_nat i).

(** [array.length] *)
Definition len {A : Type} (l : list A) : Z := Z.of_nat (List.length l).

Module Helper.
Import JS Eff.
Local Open Scope script_scope.

Section Helper.
Context {S : Type}.
Variable rt : Runtime.

(** The [do ... while] loop: at most [fuel] draws. *)
Fixpoint draw_loop (fuel : nat) (n lastIndex : Z) : M S Z :=
  match fuel with
  | O => diverge
  | Datatypes.S fuel' =>
      newIndex <- random_below rt n ;;
      if (newIndex =? lastIndex) && (1 <? n)
      then draw_loop fuel' n lastIndex
      else ret newIndex
  end.

(** [getRandomIndex(array, lastIndex)]; the assignment to the
    parameter [lastIndex] before the return is local to the call. *)
Definition getRandomIndex (fuel : nat) (array : list string) (lastIndex : Z)
  : M S Z :=
  draw_loop fuel (len array) lastIndex.
End Helper.

End Helper.

Module Utils.
Import JS Eff.
Local Open Scope script_scope.

Section Utils.
Variable rt : Runtime.

(** The store of [utils.ts] is its variable [lastIndex] (initially
    [-1]), which the loop reads and the function overwrites. *)
Definition initial : Z := -1.

Definition getRandomIndex (fuel : nat) (array : list string) : M Z Z :=
  lastIndex <- get_store ;;
  newIndex <- Helper.draw_loop rt fuel (len array) lastIndex ;;
  modify_store (fun _ => newIndex) ;;
  ret newIndex.
End Utils.

End Utils.

(* ===================================================================== *)
(** ** animate_profile_pic.ts *)
(* ===================================================================== *)

Module Rotation.
Import JS Eff Slack.
Local Open Scope script_scope.

(** The two module-level variables of the script. *)
Record Store : Type := {
  currentStatusIndex : Z;
  lastImageIndex : Z
}.

Definition initial : Store :=
  {| currentStatusIndex := 0; lastImageIndex := -1 |}.

(** How a promise given to [Promise.allSettled] settled. *)
Inductive Settled (A : Type) : Type :=
| Fulfilled (a : A)
| Rejected (reason : exn).
Arguments Fulfilled {A}.
Arguments Rejected {A}.

Definition settle {S A} (m : M S A) : M S (Settled A) :=
  fun w =>
    match m w with
    | (Ret a, w') => (Ret (Fulfilled a), w')
    | (Throw e, w') => (Ret (Rejected e), w')
    | (Diverge, w') => (Diverge, w')
    end.

Definition is_rejected {A} (r : Settled A) : bool :=
  match r with
  | Rejected _ => true
  | Fulfilled _ => false
  end.

Section Rotation.
Variable rt : Runtime.
(** [CONFIG.SLACK_APP_TOKEN] and the two constant lists. *)
Variable SLACK_APP_TOKEN : string.
Variable images : list string.
Variable statuses : list Status.

Definition image_value (i : Z) : value :=
  match index_at images i with
  | Some u => VStr u
  | None => VUndefined
  end.

(** [cycleProfile].  The two updates are started in the order of the
    array literal, each running to its first [await]; their bodies
    then resume (photo first in this model: the order in which the
    two promises settle is the network's, and nothing below depends
    on it). *)
Definition cycleProfile (fuel : nat) : M Store unit :=
  if (len images =? 0) || (len statuses =? 0) then
    say Warn "No images or statuses available for cycling."
  else
    s <- get_store ;;
    currentImageIndex <- Helper.getRandomIndex rt fuel images (lastImageIndex s) ;;
    let imageUrl := image_value currentImageIndex in
    photoPending <- updateSlackPhoto_start rt imageUrl ;;
    statusPending <- updateSlackStatus_start rt
                       (index_at statuses (currentStatusIndex s)) SLACK_APP_TOKEN ;;
    photoResult <- settle (updateSlackPhoto_resume rt imageUrl SLACK_APP_TOKEN photoPending) ;;
    statusResult <- settle (updateSlackStatus_resume statusPending) ;;
    (if is_rejected photoResult then say Error "Photo update failed:" else ret tt) ;;
    (if is_rejected statusResult then say Error "Status update failed:" else ret tt) ;;
    modify_store (fun st =>
      {| currentStatusIndex := Z.rem (currentStatusIndex st + 1) (len statuses);
         lastImageIndex := lastImageIndex st |}).

(** [cycleProfile()] at start-up and then once per timer tick:
    [n] cycles in a row. *)
Fixpoint cycles (fuel : nat) (n : nat) : M Store unit :=
  match n with
  | O => ret tt
  | Datatypes.S k => cycleProfile fuel ;; cycles fuel k
  end.
End Rotation.

End Rotation.

(* ===================================================================== *)
(** ** display_current_spotify_track.ts *)
(* ===================================================================== *)

Module Spotify.
Import JS Eff Slack.
Local Open Scope script_scope.

(** The environment variables, each already defaulted by [|| ""]
    (or by the localhost address for [BASE_URL]). *)
Record Config : Type := {
  CLIENT_ID : string;
  CLIENT_SECRET : string;
  SLACK_TOKEN : string;
  BASE_URL : string
}.

Definition SPOTIFY_AUTH_ENDPOINT : string := "https://accounts.spotify.com/authorize".
Definition SPOTIFY_TOKEN_ENDPOINT : string := "https://accounts.spotify.com/api/token".
Definition SPOTIFY_NOW_PLAYING_ENDPOINT : string :=
  "https://api.spotify.com/v1/me/player/currently-playing".
Definition SPOTIFY_SCOPES : string :=
  "user-read-currently-playing user-read-playback-state".

(** [interface TokenStorage].  The fields hold whatever the provider's
    JSON put there, hence [value]. *)
Record TokenStorage : Type := {
  accessToken : value;
  refreshToken : value;
  tokenExpiry : num;
  codeVerifier : value;
  lastPlayedTrack : value
}.

Definition tokenStorage0 : TokenStorage :=
  {| accessToken := VNull; refreshToken := VNull; tokenExpiry := Fin 0;
     codeVerifier := VNull; lastPlayedTrack := VNull |}.

Definition set_accessToken (v : value) (t : TokenStorage) : TokenStorage :=
  {| accessToken := v; refreshToken := refreshToken t; tokenExpiry := tokenExpiry t;
     codeVerifier := codeVerifier t; lastPlayedTrack := lastPlayedTrack t |}.
Definition set_refreshToken (v : value) (t : TokenStorage) : TokenStorage :=
  {| accessToken := accessToken t; refreshToken := v; tokenExpiry := tokenExpiry t;
     codeVerifier := codeVerifier t; lastPlayedTrack := lastPlayedTrack t |}.
Definition set_tokenExpiry (n : num) (t : TokenStorage) : TokenStorage :=
  {| accessToken := accessToken t; refreshToken := refreshToken t; tokenExpiry := n;
     codeVerifier := codeVerifier t; lastPlayedTrack := lastPlayedTrack t |}.
Definition set_codeVerifier (v : value) (t : TokenStorage) : TokenStorage :=
  {| accessToken := accessToken t; refreshToken := refreshToken t;
     tokenExpiry := tokenExpiry t; codeVerifier := v;
     lastPlayedTrack := lastPlayedTrack t |}.
Definition set_lastPlayedTrack (v : value) (t : TokenStorage) : TokenStorage :=
  {| accessToken := accessToken t; refreshToken := refreshToken t;
     tokenExpiry := tokenExpiry t; codeVerifier := codeVerifier t;
     lastPlayedTrack := v |}.

(** An incoming request, as [handler] reads it: [req.method],
    [url.pathname], [url.searchParams.get("code")] ([None] for [null])
    and what [await req.json()] gives ([None]: it rejects). *)
Record Request : Type := {
  req_method : string;
  pathname : string;
  code_param : option string;
  req_json : option value
}.

(** [new Response(JSON.stringify(body), { status, ... })]; the headers
    are the same constants on every route and are left out. *)
Record Response : Type := {
  res_status : Z;
  res_body : value
}.

(** [pathname.split("/").pop()] *)
Fixpoint last_segment_from (cur s : string) : string :=
  match s with
  | EmptyString => cur
  | String c rest =>
      if Ascii.eqb c "/" then last_segment_from "" rest
      else last_segment_from (cur ++ String c EmptyString) rest
  end.
Definition last_segment (s : string) : string := last_segment_from "" s.

(** [error.message] *)
Definition message_of (e : exn) : string :=
  match e with
  | TypeError m => m
  | SyntaxError => "Unexpected token in JSON"
  | NetworkError => "error sending request"
  | JsError m => m
  end.

(** [artists.map((artist) => artist.name)] *)
Fixpoint map_names (artists : list value) : exn + list value :=
  match artists with
  | [] => inr []
  | a :: rest =>
      match get_prop a "name" with
      | inl e => inl e
      | inr n =>
          match map_names rest with
          | inl e => inl e
          | inr ns => inr (n :: ns)
          end
      end
  end.

Definition failure (status : Z) (error : string) : Response :=
  {| res_status := status;
     res_body := VObj [("success", VBool false); ("error", VStr error)] |}.

Definition success (message : string) : Response :=
  {| res_status := 200;
     res_body := VObj [("success", VBool true); ("message", VStr message)] |}.

Section Spotify.
Variable rt : Runtime.
Variable cfg : Config.

Definition REDIRECT_URI : string := BASE_URL cfg ++ "/callback".

Definition getAuthorizationUrl : M TokenStorage (string * string) :=
  codeVerifier <- generateRandomString rt 64 ;;
  codeChallenge <- generateCodeChallenge rt codeVerifier ;;
  let params :=
    [("client_id", CLIENT_ID cfg);
     ("response_type", "code");
     ("redirect_uri", REDIRECT_URI);
     ("code_challenge_method", "S256");
     ("code_challenge", codeChallenge);
     ("scope", SPOTIFY_SCOPES)] in
  ret (SPOTIFY_AUTH_ENDPOINT ++ "?" ++ encodeParams rt params, codeVerifier).

Definition exchange_request (code : string) (codeVerifier : value) : FetchRequest :=
  {| url := SPOTIFY_TOKEN_ENDPOINT;
     method := "POST";
     headers := [("Content-Type", "application/x-www-form-urlencoded")];
     body := UrlEncoded
               [("client_id", CLIENT_ID cfg);
                ("client_secret", CLIENT_SECRET cfg);
                ("grant_type", "authorization_code");
                ("code", code);
                ("redirect_uri", REDIRECT_URI);
                ("code_verifier", to_string codeVerifier)] |}.

Definition exchangeCodeForToken (code : string) (codeVerifier : value)
  : M TokenStorage value :=
  try_catch
    (response <- fetch rt (exchange_request code codeVerifier) ;;
     data <- resp_json response ;;
     if ok response then ret data
     else say Error "Error exchanging code for token:" ;; ret VNull)
    (fun error => say Error "Failed to exchange code for token:" ;; ret VNull).

Definition refresh_request (refreshToken : value) : FetchRequest :=
  {| url := SPOTIFY_TOKEN_ENDPOINT;
     method := "POST";
     headers := [("Content-Type", "application/x-www-form-urlencoded");
                 ("Authorization",
                  "Basic " ++ encodeBase64 rt (CLIENT_ID cfg ++ ":" ++ CLIENT_SECRET cfg))];
     body := UrlEncoded
               [("grant_type", "refresh_token");
                ("refresh_token", to_string refreshToken)] |}.

(** [tokenStorage.accessToken && tokenStorage.tokenExpiry > Date.now()]:
    the clock is read only when the left operand is truthy. *)
Definition token_still_valid : M TokenStorage bool :=
  s <- get_store ;;
  if truthy (accessToken s) then
    now <- date_now rt ;;
    ret (num_gt (tokenExpiry s) (Fin now))
  else ret false.

Definition refreshSpotifyToken : M TokenStorage value :=
  valid <- token_still_valid ;;
  if valid then
    s <- get_store ;; ret (accessToken s)
  else
    s <- get_store ;;
    if negb (truthy (refreshToken s)) then
      say Error "No refresh token available" ;; ret VNull
    else
      try_catch
        (response <- fetch rt (refresh_request (refreshToken s)) ;;
         data <- resp_json response ;;
         if ok response then
           access_token <- lift (get_prop data "access_token") ;;
           modify_store (set_accessToken access_token) ;;
           now <- date_now rt ;;
           expires_in <- lift (get_prop data "expires_in") ;;
           modify_store
             (set_tokenExpiry
                (num_add (Fin now)
                   (num_mul (to_number (StringToNumber rt) expires_in) (Fin 1000)))) ;;
           refresh_token <- lift (get_prop data "refresh_token") ;;
           (if truthy refresh_token then
              modify_store (set_refreshToken refresh_token) ;;
              say Log "New refresh token received and stored"
            else ret tt) ;;
           s' <- get_store ;;
           ret (accessToken s')
         else
           say Error "Error refreshing token:" ;; ret VNull)
        (fun error => say Error "Failed to refresh token:" ;; ret VNull).

Definition now_playing_request (token : value) : FetchRequest :=
  {| url := SPOTIFY_NOW_PLAYING_ENDPOINT;
     method := "GET";
     headers := [("Authorization", "Bearer " ++ to_string token)];
     body := NoBody |}.

(** [data.item?.artists.map(...).join(", ")] *)
Definition artist_names (item : value) : exn + value :=
  if nullish item then inr VUndefined
  else
    match get_prop item "artists" with
    | inl e => inl e
    | inr (VArr artists) =>
        match map_names artists with
        | inl e => inl e
        | inr names => inr (VStr (join ", " names))
        end
    | inr VUndefined | inr VNull =>
        inl (TypeError "Cannot read properties of undefined (reading 'map')")
    | inr _ => inl (TypeError "data.item?.artists.map is not a function")
    end.

(** [data.item?.album?.images[0]?.url] *)
Definition album_art_url (item : value) : exn + value :=
  let album := opt_prop item "album" in
  if nullish album then inr VUndefined
  else
    match get_first (opt_prop album "images") with
    | inl e => inl e
    | inr first => inr (opt_prop first "url")
    end.

(** The object literal returned for a 200 response. *)
Definition track_of (data : value) : exn + value :=
  match get_prop data "is_playing" with
  | inl e => inl e
  | inr is_playing =>
      let item := opt_prop data "item" in
      match artist_names item with
      | inl e => inl e
      | inr artistName =>
          match album_art_url item with
          | inl e => inl e
          | inr albumArtUrl =>
              inr (VObj
                     [("isPlaying", is_playing);
                      ("trackName", opt_prop item "name");
                      ("artistName", artistName);
                      ("albumName", opt_prop (opt_prop item "album") "name");
                      ("trackUrl", opt_prop (opt_prop item "external_urls") "spotify");
                      ("albumArtUrl", albumArtUrl);
                      ("albumArt", opt_prop (opt_prop item "album") "images")])
          end
      end
  end.

Definition not_playing : value := VObj [("isPlaying", VBool false)].

Definition getCurrentlyPlaying : M TokenStorage value :=
  token <- refreshSpotifyToken ;;
  if negb (truthy token) then ret VNull
  else
    say Log "{ token }" ;;
    try_catch
      (response <- fetch rt (now_playing_request token) ;;
       say Log "{ response }" ;;
       if status response =? 204 then ret not_playing
       else if ok response then
         data <- resp_json response ;;
         say Log "{ data }" ;;
         lift (track_of data)
       else
         body_text <- resp_text response ;;
         say Error "Error fetching currently playing:" ;; ret VNull)
      (fun error => say Error "Failed to fetch currently playing:" ;; ret VNull).

Definition updateStatus (trackInfo : value) : M TokenStorage bool :=
  if (SLACK_TOKEN cfg =? "")%string then
    say Error "No Slack token available" ;; ret false
  else
    try_catch
      (status <-
         (if truthy (js_and (opt_prop trackInfo "isPlaying")
                            (opt_prop trackInfo "trackName"))
          then
            trackName <- lift (get_prop trackInfo "trackName") ;;
            artistName <- lift (get_prop trackInfo "artistName") ;;
            ret {| text := "Playing: " ++ to_string trackName ++ " by "
                                       ++ to_string artistName;
                   emoji := ":cat-arm-dance:" |}
          else ret {| text := ""; emoji := "" |}) ;;
       result <- updateSlackStatus rt (Some status) (SLACK_TOKEN cfg) ;;
       ret result)
      (fun error => say Error "Error updating status:" ;; ret false).

(** The [/auth] route. *)
Definition auth_route : M TokenStorage Response :=
  r <- getAuthorizationUrl ;;
  let '(authUrl, codeVerifier) := r in
  modify_store (set_codeVerifier (VStr codeVerifier)) ;;
  ret {| res_status := 200;
         res_body :=
           VObj [("success", VBool true);
                 ("authUrl", VStr authUrl);
                 ("message",
                  VStr "Please visit this URL to authorize the application")] |}.

(** [!code] for [code: string | null] *)
Definition code_missing (code : option string) : bool :=
  match code with
  | None => true
  | Some c => (c =? "")%string
  end.

(** The [/callback] route. *)
Definition callback_route (req : Request) : M TokenStorage Response :=
  let code := code_param req in
  if code_missing code then
    ret (failure 400 "No authorization code provided")
  else
    s <- get_store ;;
    if negb (truthy (codeVerifier s)) then
      ret (failure 400
             "No code verifier found. Please restart the authentication flow.")
    else
      tokenData <- exchangeCodeForToken
                     (match code with Some c => c | None => "" end)
                     (codeVerifier s) ;;
      if negb (truthy tokenData) then
        ret (failure 500 "Failed to exchange authorization code for tokens")
      else
        access_token <- lift (get_prop tokenData "access_token") ;;
        modify_store (set_accessToken access_token) ;;
        refresh_token <- lift (get_prop tokenData "refresh_token") ;;
        modify_store (set_refreshToken refresh_token) ;;
        now <- date_now rt ;;
        expires_in <- lift (get_prop tokenData "expires_in") ;;
        modify_store
          (set_tokenExpiry
             (num_add (Fin now)
                (num_mul (to_number (StringToNumber rt) expires_in) (Fin 1000)))) ;;
        modify_store (set_codeVerifier VNull) ;;
        ret (success "Authentication successful! You can now close this window.").

(** The [/set-token] route (POST). *)
Definition set_token_route (req : Request) : M TokenStorage Response :=
  try_catch
    (body <- (match req_json req with
              | Some v => ret v
              | None => throw SyntaxError
              end) ;;
     supplied <- lift (get_prop body "refreshToken") ;;
     if truthy supplied then
       modify_store (set_refreshToken supplied) ;;
       accessToken <- refreshSpotifyToken ;;
       if truthy accessToken then
         ret (success "Refresh token set and validated successfully")
       else
         ret (failure 400 "Refresh token was set but could not be validated")
     else
       ret (failure 400 "No refresh token provided"))
    (fun error => ret (failure 400 "Invalid JSON body")).

(** The default route: one poll and one update. *)
Definition default_route : M TokenStorage Response :=
  say Log "Spotify tracker function called" ;;
  trackInfo <- getCurrentlyPlaying ;;
  results <-
    (if negb (is_null trackInfo) then
       slackStatusResult <- updateStatus trackInfo ;;
       isPlaying <- lift (get_prop trackInfo "isPlaying") ;;
       albumArtUrl <- lift (get_prop trackInfo "albumArtUrl") ;;
       if truthy (js_and isPlaying albumArtUrl) then
         slackPhotoResult <- updateSlackPhoto rt albumArtUrl (SLACK_TOKEN cfg) ;;
         modify_store (set_lastPlayedTrack trackInfo) ;;
         ret (slackStatusResult, slackPhotoResult)
       else ret (slackStatusResult, false)
     else
       slackStatusResult <- updateStatus not_playing ;;
       ret (slackStatusResult, false)) ;;
  ret {| res_status := 200;
         res_body :=
           VObj [("success", VBool true);
                 ("currentlyPlaying", js_or trackInfo not_playing);
                 ("slackUpdated",
                  VObj [("status", VBool (fst results));
                        ("photo", VBool (snd results))])] |}.

(** [export default async function handler(req)] *)
Definition handler (req : Request) : M TokenStorage Response :=
  if (req_method req =? "OPTIONS")%string then
    ret {| res_status := 200; res_body := VNull |}
  else
    let path := last_segment (pathname req) in
    try_catch
      (if (path =? "auth")%string then auth_route
       else if (path =? "callback")%string then callback_route req
       else if (path =? "set-token")%string && (req_method req =? "POST")%string
            then set_token_route req
       else default_route)
      (fun error =>
         say Error "Error processing request:" ;;
         ret {| res_status := 500;
                res_body :=
                  VObj [("success", VBool false);
                        ("error",
                         js_or (VStr (message_of error))
                               (VStr "An unknown error occurred"))] |}).

(** [updateSpotifyStatus], which [setInterval] runs every 15 seconds. *)
Definition updateSpotifyStatus : M TokenStorage unit :=
  s <- get_store ;;
  if negb (truthy (refreshToken s)) then
    say Log "Not authenticated. Please authenticate first."
  else
    try_catch
      (trackInfo <- getCurrentlyPlaying ;;
       if is_null trackInfo then
         say Log "Error getting track info or not authenticated properly."
       else
         isPlaying <- lift (get_prop trackInfo "isPlaying") ;;
         if negb (truthy isPlaying) then
           say Log "No track currently playing."
         else
           slackStatusResult <- updateStatus trackInfo ;;
           say Log ("Slack status update: "
                    ++ (if slackStatusResult then "success" else "failed")) ;;
           albumArtUrl <- lift (get_prop trackInfo "albumArtUrl") ;;
           (if truthy albumArtUrl then
              slackPhotoResult <- updateSlackPhoto rt albumArtUrl (SLACK_TOKEN cfg) ;;
              say Log ("Slack photo update: "
                       ++ (if slackPhotoResult then "success" else "failed")) ;;
              modify_store (set_lastPlayedTrack trackInfo)
            else ret tt) ;;
           trackName <- lift (get_prop trackInfo "trackName") ;;
           artistName <- lift (get_prop trackInfo "artistName") ;;
           say Log ("Updated with: " ++ to_string trackName ++ " by "
                                     ++ to_string artistName))
      (fun error => say Error "Error in updateSpotifyStatus:").
End Spotify.

End Spotify.

(* ===================================================================== *)
(** ** Concrete runtimes, for the examples *)
(* ===================================================================== *)

Module Demo.
Import JS Eff.

(** A response that carries a JSON body. *)
Definition json_response (code : Z) (v : value) : HttpResponse :=
  {| status := code; json_body := Some v; text_body := Some ""; blob_body := Some "" |}.

(** A response without a body. *)
Definition bare_response (code : Z) : HttpResponse :=
  {| status := code; json_body := None; text_body := Some ""; blob_body := Some "" |}.

(** A runtime whose draws cycle through [0, 1, 2, ...] modulo the bound,
    with the clock and the network given. *)
Definition runtime (time : nat -> Z) (network : nat -> FetchRequest -> FetchOutcome)
  : Runtime :=
  {| clock := time;
     net := network;
     rnd := fun k n => Z.of_nat k mod n;
     StringToNumber := fun _ => NaN;
     encodeBase64 := fun s => s;
     sha256_base64 := fun s => s;
     encodeParams := fun _ => "" |}.

(** No network at all: every request is rejected. *)
Definition offline : Runtime := runtime (fun _ => 1000) (fun _ _ => Rejects).

Definition world0 {S : Type} (s : S) : World S := mkWorld s 0 0 [] [].

Definition cfg : Spotify.Config :=
  {| Spotify.CLIENT_ID := "client";
     Spotify.CLIENT_SECRET := "secret";
     Spotify.SLACK_TOKEN := "xoxp-token";
     Spotify.BASE_URL := "http://localhost:8000" |}.

(** A store holding a token that expires at [expiry]. *)
Definition authenticated (expiry : Z) : Spotify.TokenStorage :=
  {| Spotify.accessToken := VStr "tok";
     Spotify.refreshToken := VStr "ref";
     Spotify.tokenExpiry := Fin expiry;
     Spotify.codeVerifier := VNull;
     Spotify.lastPlayedTrack := VNull |}.

(** A store in which an authorization has been requested. *)
Definition awaiting_callback : Spotify.TokenStorage :=
  {| Spotify.accessToken := VNull;
     Spotify.refreshToken := VNull;
     Spotify.tokenExpiry := Fin 0;
     Spotify.codeVerifier := VStr "verifier";
     Spotify.lastPlayedTrack := VNull |}.

(** The provider's answer to a token request. *)
Definition token_grant : value :=
  VObj [("access_token", VStr "fresh");
        ("token_type", VStr "Bearer");
        ("expires_in", VNum (Fin 3600));
        ("refresh_token", VStr "ref2")].

(** A network in which the provider grants every token request, nothing
    is playing, and Slack accepts every update. *)
Definition network_idle (k : nat) (req : FetchRequest) : FetchOutcome :=
  if (url req =? Spotify.SPOTIFY_TOKEN_ENDPOINT)%string then
    Resolves (json_response 200 token_grant)
  else if (url req =? Spotify.SPOTIFY_NOW_PLAYING_ENDPOINT)%string then
    Resolves (bare_response 204)
  else
    Resolves (json_response 200 (VObj [("ok", VBool true)])).

Definition idle : Runtime := runtime (fun _ => 1000) network_idle.

(** A now-playing body with two artists and two image variants. *)
Definition now_playing_body : value :=
  VObj [("is_playing", VBool true);
        ("item",
         VObj [("name", VStr "Song");
               ("artists", VArr [VObj [("name", VStr "Ann")];
                                 VObj [("name", VStr "Bob")]]);
               ("album",
                VObj [("name", VStr "Album");
                      ("images", VArr [VObj [("url", VStr "https://img/640")];
                                       VObj [("url", VStr "https://img/64")]])]);
               ("external_urls", VObj [("spotify", VStr "https://track")])])].

(** The same network while a track is playing. *)
Definition network_playing (k : nat) (req : FetchRequest) : FetchOutcome :=
  if (url req =? Spotify.SPOTIFY_NOW_PLAYING_ENDPOINT)%string then
    Resolves (json_response 200 now_playing_body)
  else network_idle k req.

Definition playing : Runtime := runtime (fun _ => 1000) network_playing.

(** [GET /callback?code=abc], [POST /set-token] with a refresh token in
    its body, and [GET /]. *)
Definition callback_request : Spotify.Request :=
  {| Spotify.req_method := "GET";
     Spotify.pathname := "/callback";
     Spotify.code_param := Some "abc";
     Spotify.req_json := None |}.

Definition set_token_request : Spotify.Request :=
  {| Spotify.req_method := "POST";
     Spotify.pathname := "/set-token";
     Spotify.code_param := None;
     Spotify.req_json := Some (VObj [("refreshToken", VStr "pasted")]) |}.

Definition root_request : Spotify.Request :=
  {| Spotify.req_method := "GET";
     Spotify.pathname := "/";
     Spotify.code_param := None;
     Spotify.req_json := None |}.

End Demo.

(* ===================================================================== *)
(** ** Vocabulary of the statements *)
(* ===================================================================== *)

Module Vocabulary.
Import JS Eff.

(** Worlds that differ at most in the number of random draws taken. *)
Definition only_draws {S : Type} (w w' : World S) : Prop :=
  store w' = store w /\ clock_reads w' = clock_reads w /\
  calls w' = calls w /\ console w' = console w /\
  (random_draws w < random_draws w')%nat.

(** Two worlds with the same store, clock position and draw position. *)
Definition same_store {S : Type} (w w' : World S) : Prop :=
  store w' = store w /\ clock_reads w' = clock_reads w /\
  random_draws w' = random_draws w.

(** What holds of the store of [animate_profile_pic.ts] between two
    cycles: the last image index is still the sentinel it was
    initialised with, and the status cursor is an index of [statuses]. *)
Definition rotation_inv (statuses : list Slack.Status) (s : Rotation.Store) : Prop :=
  Rotation.lastImageIndex s = -1 /\
  0 <= Rotation.currentStatusIndex s < len statuses.

(** The world after one more reading of the clock. *)
Definition tick {S : Type} (w : World S) : World S :=
  mkWorld (store w) (Datatypes.S (clock_reads w)) (random_draws w) (calls w) (console w).

(** The world after one more request has left. *)
Definition sent {S : Type} (req : FetchRequest) (w : World S) : World S :=
  mkWorld (store w) (clock_reads w) (random_draws w) (calls w ++ [req])%list (console w).

(** The world after one more console line. *)
Definition said {S : Type} (l : Level) (line : string) (w : World S) : World S :=
  mkWorld (store w) (clock_reads w) (random_draws w) (calls w)
          (console w ++ [(l, line)])%list.

(** The world with its store replaced. *)
Definition with_store {S : Type} (s : S) (w : World S) : World S :=
  mkWorld s (clock_reads w) (random_draws w) (calls w) (console w).

(** The stored access token is present and its expiry lies strictly
    after the next reading of the clock. *)
Definition token_valid (rt : Runtime) (w : World Spotify.TokenStorage) : bool :=
  truthy (Spotify.accessToken (store w)) &&
  num_gt (Spotify.tokenExpiry (store w)) (Fin (clock rt (clock_reads w))).

(** The world after the validity test of [refreshSpotifyToken], which
    reads the clock only when an access token is present. *)
Definition after_validity_test (w : World Spotify.TokenStorage)
  : World Spotify.TokenStorage :=
  if truthy (Spotify.accessToken (store w)) then tick w else w.

(** The world in which [getCurrentlyPlaying] examines the response to
    its request, [w1] being the world its token was obtained in. *)
Definition polled (token : value) (w1 : World Spotify.TokenStorage)
  : World Spotify.TokenStorage :=
  said Log "{ response }"
       (sent (Spotify.now_playing_request token) (said Log "{ token }" w1)).

(** The token store after a successful code exchange at time [now]
    that yielded [tokenData]. *)
Definition granted (rt : Runtime) (now : Z) (tokenData : value)
           (s : Spotify.TokenStorage) : Spotify.TokenStorage :=
  {| Spotify.accessToken := opt_prop tokenData "access_token";
     Spotify.refreshToken := opt_prop tokenData "refresh_token";
     Spotify.tokenExpiry :=
       num_add (Fin now)
               (num_mul (to_number (StringToNumber rt) (opt_prop tokenData "expires_in"))
                        (Fin 1000));
     Spotify.codeVerifier := VNull;
     Spotify.lastPlayedTrack := Spotify.lastPlayedTrack s |}.

(** The request falls through to the default route of [handler]. *)
Definition default_routed (req : Spotify.Request) : bool :=
  let path := Spotify.last_segment (Spotify.pathname req) in
  negb (Spotify.req_method req =? "OPTIONS")%string &&
  negb (path =? "auth")%string &&
  negb (path =? "callback")%string &&
  negb ((path =? "set-token")%string && (Spotify.req_method req =? "POST")%string).

(** The status that clears the profile: empty text, empty emoji. *)
Definition cleared_status : Slack.Status :=
  {| Slack.text := ""; Slack.emoji := "" |}.

(** A request to the provider fails: the transport fails (the [fetch]
    promise rejects, or the body cannot be read as JSON) or the provider
    rejects the request (a status outside 200..299). *)
Definition request_fails (o : FetchOutcome) : bool :=
  match o with
  | Rejects => true
  | Resolves r =>
      match json_body r with
      | None => true
      | Some _ => negb (ok r)
      end
  end.

End Vocabulary.


(* ===================================================================== *)
(** ** Further vocabulary: what the platform and the provider answered *)
(* ===================================================================== *)

Module Criteria.
Import JS Eff.

(** Slack accepted an update: the request was answered, the body could
    be read as JSON, and its [ok] is truthy.  The HTTP status plays no
    part. *)
Definition platform_accepts (o : FetchOutcome) : bool :=
  match o with
  | Rejects => false
  | Resolves r =>
      match json_body r with
      | Some data => truthy (opt_prop data "ok")
      | None => false
      end
  end.

(** The bytes of the image, when the image request was answered and its
    body could be read. *)
Definition image_blob (o : FetchOutcome) : option string :=
  match o with
  | Rejects => None
  | Resolves r => blob_body r
  end.

(** Every character of [s] occurs in [alphabet]. *)
Definition chars_from (alphabet s : string) : Prop :=
  forall i c, String.get i s = Some c -> exists j, String.get j alphabet = Some c.

(** [s] contains no ["/"]. *)
Fixpoint no_slash (s : string) : bool :=
  match s with
  | EmptyString => true
  | String c rest => negb (Ascii.eqb c "/") && no_slash rest
  end.

(** The token store after a refresh granted at time [now] with the
    body [data]: the refresh token is replaced only when the grant
    carries one. *)
Definition refreshed (rt : Runtime) (now : Z) (data : value)
           (s : Spotify.TokenStorage) : Spotify.TokenStorage :=
  {| Spotify.accessToken := opt_prop data "access_token";
     Spotify.refreshToken :=
       js_or (opt_prop data "refresh_token") (Spotify.refreshToken s);
     Spotify.tokenExpiry :=
       num_add (Fin now)
               (num_mul (to_number (StringToNumber rt) (opt_prop data "expires_in"))
                        (Fin 1000));
     Spotify.codeVerifier := Spotify.codeVerifier s;
     Spotify.lastPlayedTrack := Spotify.lastPlayedTrack s |}.

(** The now-playing request comes back with nothing to show: the
    transport fails, or the status is neither 204 nor 2xx, or the body
    of a 2xx answer cannot be read as JSON. *)
Definition poll_fails (o : FetchOutcome) : bool :=
  match o with
  | Rejects => true
  | Resolves r =>
      negb (status r =? 204) &&
      (negb (ok r) || match json_body r with None => true | Some _ => false end)
  end.

(** The track whose item is missing: only [isPlaying] may be defined. *)
Definition track_without_item (is_playing : value) : value :=
  VObj [("isPlaying", is_playing);
        ("trackName", VUndefined);
        ("artistName", VUndefined);
        ("albumName", VUndefined);
        ("trackUrl", VUndefined);
        ("albumArtUrl", VUndefined);
        ("albumArt", VUndefined)].

(** [v] is an array. *)
Definition is_array (v : value) : bool :=
  match v with
  | VArr _ => true
  | _ => false
  end.

(** The status [updateStatus] shows for a track: the title and the
    artists while a named track is playing, the cleared status
    otherwise. *)
Definition status_shown (trackInfo : value) : Slack.Status :=
  if truthy (js_and (opt_prop trackInfo "isPlaying") (opt_prop trackInfo "trackName"))
  then {| Slack.text := "Playing: " ++ to_string (opt_prop trackInfo "trackName")
                          ++ " by " ++ to_string (opt_prop trackInfo "artistName");
          Slack.emoji := ":cat-arm-dance:" |}
  else Vocabulary.cleared_status.

(** What refreshing, polling and publishing keep of the token store:
    the pending verifier, and a refresh token once one is stored. *)
Definition keeps_session (s s' : Spotify.TokenStorage) : Prop :=
  Spotify.codeVerifier s' = Spotify.codeVerifier s /\
  (truthy (Spotify.refreshToken s) = true -> truthy (Spotify.refreshToken s') = true).

(** The body of the answer of the default route. *)
Definition poll_report (currentlyPlaying : value) (status photo : bool) : value :=
  VObj [("success", VBool true);
        ("currentlyPlaying", currentlyPlaying);
        ("slackUpdated", VObj [("status", VBool status); ("photo", VBool photo)])].




End Criteria.

(* ===================================================================== *)
(** ** Further concrete runtimes *)
(* ===================================================================== *)

Module Scenes.
Import JS Eff.

(** The player reports an advertisement: playing, but no item. *)
Definition advert_body : value :=
  VObj [("is_playing", VBool true); ("item", VNull)].

Definition network_advert (k : nat) (req : FetchRequest) : FetchOutcome :=
  if (url req =? Spotify.SPOTIFY_NOW_PLAYING_ENDPOINT)%string then
    Resolves (Demo.json_response 200 advert_body)
  else Demo.network_idle k req.

Definition advert : Runtime := Demo.runtime (fun _ => 1000) network_advert.

(** The configuration without a Slack token. *)
Definition cfg_without_slack : Spotify.Config :=
  {| Spotify.CLIENT_ID := "client";
     Spotify.CLIENT_SECRET := "secret";
     Spotify.SLACK_TOKEN := "";
     Spotify.BASE_URL := "http://localhost:8000" |}.



(** The provider grants a token without saying how long it lasts. *)
Definition grant_without_expiry : value :=
  VObj [("access_token", VStr "fresh"); ("token_type", VStr "Bearer")].

Definition network_open_grant (k : nat) (req : FetchRequest) : FetchOutcome :=
  if (url req =? Spotify.SPOTIFY_TOKEN_ENDPOINT)%string then
    Resolves (Demo.json_response 200 grant_without_expiry)
  else Demo.network_idle k req.

Definition open_grant : Runtime := Demo.runtime (fun _ => 1000) network_open_grant.






End Scenes.


(* ===================================================================== *)
(** ** The first profile animation script (with utils.ts) *)
(* ===================================================================== *)

Module Legacy.
Import JS Eff Slack.
Local Open Scope script_scope.

(** The variable [currentStatusIndex] of the script, together with the
    variable [lastIndex] of the module utils.ts it imports. *)
Record Store : Type := {
  currentStatusIndex : Z;
  lastIndex : Z
}.

Definition initial : Store :=
  {| currentStatusIndex := 0; lastIndex := Utils.initial |}.

(** A function of utils.ts called from the script: it runs on the
    variable of its own module, in the same outside world. *)
Definition in_utils {A : Type} (m : M Z A) : M Store A :=
  fun w =>
    let '(o, wz) := m (mkWorld (lastIndex (store w)) (clock_reads w) (random_draws w)
                               (calls w) (console w)) in
    (o, mkWorld {| currentStatusIndex := currentStatusIndex (store w);
                   lastIndex := store wz |}
                (clock_reads wz) (random_draws wz) (calls wz) (console wz)).

Section Legacy.
Variable rt : Runtime.
(** [CONFIG.SLACK_TOKEN] and the two constant lists. *)
Variable SLACK_TOKEN : string.
Variable images : list string.
Variable statuses : list Status.

Definition image_value (i : Z) : value :=
  match index_at images i with
  | Some u => VStr u
  | None => VUndefined
  end.

(** The script's own [updateSlackPhoto], which gives up on an image
    response that is not ok; split at its first [await] as before. *)
Definition updateSlackPhoto_start (imageUrl : value) : M Store FetchOutcome :=
  fetch_start rt (image_request imageUrl).

Definition updateSlackPhoto_resume (imageUrl : value) (pending : FetchOutcome)
  : M Store bool :=
  try_catch
    (imageResponse <- await_fetch pending ;;
     if negb (ok imageResponse) then
       throw (JsError ("Failed to fetch image: " ++ to_string imageUrl))
     else
       imageBlob <- resp_blob imageResponse ;;
       response <- fetch rt (setPhoto_request SLACK_TOKEN imageBlob) ;;
       data <- resp_json response ;;
       check_ok data "Failed to update profile picture" ;;
       say Log ("Profile picture updated: " ++ to_string imageUrl) ;;
       ret true)
    (fun error => say Error "Profile picture update failed:" ;; ret false).

Definition updateSlackPhoto (imageUrl : value) : M Store bool :=
  pending <- updateSlackPhoto_start imageUrl ;;
  updateSlackPhoto_resume imageUrl pending.

(** The script's own [updateSlackStatus], which reads the status at the
    cursor itself; out of range, building the request throws inside the
    [try]. *)
Definition updateSlackStatus_start : M Store (option (Status * FetchOutcome)) :=
  s <- get_store ;;
  match index_at statuses (currentStatusIndex s) with
  | None => ret None
  | Some st => p <- fetch_start rt (setStatus_request SLACK_TOKEN st) ;; ret (Some (st, p))
  end.

Definition updateSlackStatus_resume (pending : option (Status * FetchOutcome))
  : M Store bool :=
  try_catch
    match pending with
    | None => throw (TypeError "Cannot read properties of undefined (reading 'text')")
    | Some (st, p) =>
        response <- await_fetch p ;;
        data <- resp_json response ;;
        check_ok data "Failed to update status" ;;
        say Log ("Status updated: " ++ text st ++ " " ++ emoji st) ;;
        ret true
    end
    (fun error => say Error "Status update failed:" ;; ret false).

Definition updateSlackStatus : M Store bool :=
  pending <- updateSlackStatus_start ;;
  updateSlackStatus_resume pending.

(** [cycleProfile]: the index comes from [getRandomIndex(images)] of
    utils.ts, which remembers it. *)
Definition cycleProfile (fuel : nat) : M Store unit :=
  if (len images =? 0) || (len statuses =? 0) then
    say Warn "No images or statuses available for cycling."
  else
    currentImageIndex <- in_utils (Utils.getRandomIndex rt fuel images) ;;
    let imageUrl := image_value currentImageIndex in
    photoPending <- updateSlackPhoto_start imageUrl ;;
    statusPending <- updateSlackStatus_start ;;
    photoResult <- Rotation.settle (updateSlackPhoto_resume imageUrl photoPending) ;;
    statusResult <- Rotation.settle (updateSlackStatus_resume statusPending) ;;
    (if Rotation.is_rejected photoResult then say Error "Photo update failed:" else ret tt) ;;
    (if Rotation.is_rejected statusResult then say Error "Status update failed:" else ret tt) ;;
    modify_store (fun st =>
      {| currentStatusIndex := Z.rem (currentStatusIndex st + 1) (len statuses);
         lastIndex := lastIndex st |}).
End Legacy.

(** The image could be fetched: the request was answered with a 2xx
    status and its body could be read. *)
Definition fetched_image (o : FetchOutcome) : option string :=
  match o with
  | Rejects => None
  | Resolves r => if ok r then blob_body r else None
  end.

End Legacy.

(* ===================================================================== *)
(** ** animate_profile_pic.ts: the monitoring endpoint *)
(* ===================================================================== *)

Module Monitor.
Import JS Eff.

(** [CONFIG.IMAGES_PER_MINUTE] and the interval derived from it. *)
Definition IMAGES_PER_MINUTE : Z := 10.
Definition INTERVAL : Z := (60 * 1000) / IMAGES_PER_MINUTE.

(** A response of [serve]'s callback: its status and its body, either
    the text ["ok"] or the object given to [JSON.stringify] (which leaves
    out the properties that are [undefined]). *)
Record Response : Type := {
  res_status : Z;
  res_body : value
}.

Definition status_value (st : Slack.Status) : value :=
  VObj [("text", VStr (Slack.text st)); ("emoji", VStr (Slack.emoji st))].

Section Monitor.
Variable images : list string.
Variable statuses : list Slack.Status.

(** The callback given to [serve]: it reads the store and never writes
    it.  Nothing in its [try] can throw. *)
Definition serve (method : string) (s : Rotation.Store) : Response :=
  if (method =? "OPTIONS")%string then
    {| res_status := 200; res_body := VStr "ok" |}
  else
    {| res_status := 200;
       res_body :=
         VObj [("success", VBool true);
               ("currentImage",
                match index_at images (Rotation.lastImageIndex s) with
                | Some u => VStr u
                | None => VUndefined
                end);
               ("currentStatus",
                match index_at statuses (Rotation.currentStatusIndex s) with
                | Some st => status_value st
                | None => VUndefined
                end);
               ("totalImages", VNum (Fin (len images)));
               ("totalStatuses", VNum (Fin (len statuses)));
               ("interval", VNum (Fin INTERVAL));
               ("status", VStr "running")] |}.
End Monitor.

End Monitor.
(* ===================================================================== *)
(** * Properties *)
(* ===================================================================== *)

Import JS Eff Vocabulary.

(** ** The non-repeating selector *)

Section Selector.
Variable rt : Runtime.
Context {S : Type}.

Lemma draw_loop_returns (n lastIndex : Z) :
  1 < n ->
  forall (fuel j : nat) (w : World S),
    (j < fuel)%nat ->
    rnd rt (random_draws w + j) n <> lastIndex ->
    exists k w',
      Helper.draw_loop rt fuel n lastIndex w = (Ret (rnd rt k n), w') /\
      rnd rt k n <> lastIndex /\ only_draws w w'.
Proof.
  intros Hn.
  induction fuel as [|fuel IH]; intros j w Hj Hne; [lia|].
  cbn [Helper.draw_loop]. unfold bind, random_below.
  destruct ((rnd rt (random_draws w) n =? lastIndex) && (1 <? n)) eqn:E.
  - apply andb_true_iff in E as [E _]. apply Z.eqb_eq in E.
    destruct j as [|j].
    + rewrite Nat.add_0_r in Hne. contradiction.
    + destruct (IH j (mkWorld (store w) (clock_reads w)
                              (Datatypes.S (random_draws w)) (calls w) (console w)))
        as (k & w' & Hrun & Hk & Hs & Hc & Hnet & Ho & Hd).
      * lia.
      * cbn [random_draws]. replace (Datatypes.S (random_draws w) + j)%nat
          with (random_draws w + Datatypes.S j)%nat by lia. exact Hne.
      * exists k, w'. cbn in *. repeat split; try assumption. lia.
  - eexists (random_draws w), _. split; [reflexivity|].
    split.
    + apply andb_false_iff in E as [E|E].
      * apply Z.eqb_neq in E. exact E.
      * apply Z.ltb_ge in E. lia.
    + unfold only_draws; cbn. repeat split; lia.
Qed.

(** Whatever the fuel, a returned index is a draw that ended the loop. *)
Lemma draw_loop_sound (n lastIndex : Z) :
  forall (fuel : nat) (w w' : World S) (i : Z),
    Helper.draw_loop rt fuel n lastIndex w = (Ret i, w') ->
    (exists k, i = rnd rt k n) /\ (1 < n -> i <> lastIndex) /\ only_draws w w'.
Proof.
  induction fuel as [|fuel IH]; intros w w' i Hrun; [discriminate|].
  cbn [Helper.draw_loop] in Hrun. unfold bind, random_below in Hrun.
  destruct ((rnd rt (random_draws w) n =? lastIndex) && (1 <? n)) eqn:E.
  - apply IH in Hrun as ((k & Hk) & Hne & Hs & Hc & Hnet & Ho & Hd).
    cbn in *. split; [eauto|]. split; [assumption|].
    unfold only_draws. repeat split; try assumption. lia.
  - injection Hrun as <- <-. split; [eauto|]. split.
    + intros Hn. apply andb_false_iff in E as [E|E].
      * apply Z.eqb_neq in E. exact E.
      * apply Z.ltb_ge in E. lia.
    + unfold only_draws; cbn. repeat split; lia.
Qed.

(** With a single candidate the first draw is returned. *)
Lemma draw_loop_single (lastIndex : Z) (fuel : nat) (w : World S) :
  Helper.draw_loop rt (Datatypes.S fuel) 1 lastIndex w
  = (Ret (rnd rt (random_draws w) 1),
     mkWorld (store w) (clock_reads w) (Datatypes.S (random_draws w))
             (calls w) (console w)).
Proof.
  cbn [Helper.draw_loop]. unfold bind, random_below.
  rewrite andb_false_r. reflexivity.
Qed.
End Selector.

(** C2 (helper.ts and utils.ts, [getRandomIndex]).  Let the draws
    [Math.floor(Math.random() * array.length)] lie in
    [[0, array.length)].  For an array of more than one element and any
    previous index, as soon as the generator yields a draw other than the
    previous index the call returns, and what it returns is an index in
    [[0, length)] different from the previous index (and whenever the
    call returns at all, that is what it returns); for an array of
    exactly one element the call returns index 0 after a single draw,
    without a second pass through the loop.  The same holds for the
    variant of utils.ts, whose previous index is the module variable
    [lastIndex], which it then overwrites with the index returned. *)
Theorem C2_getRandomIndex_avoids_previous
  (rt : Runtime) (array : list string)
  (Hrange : forall k, 0 <= rnd rt k (len array) < len array) :
  (forall (S : Type) (lastIndex : Z) (w : World S),
      (1 < len array ->
       forall j fuel,
         rnd rt (random_draws w + j) (len array) <> lastIndex ->
         (j < fuel)%nat ->
         exists i w',
           Helper.getRandomIndex rt fuel array lastIndex w = (Ret i, w') /\
           0 <= i < len array /\ i <> lastIndex /\ only_draws w w') /\
      (len array = 1 ->
       forall fuel,
         Helper.getRandomIndex rt (Datatypes.S fuel) array lastIndex w
         = (Ret 0, mkWorld (store w) (clock_reads w)
                           (Datatypes.S (random_draws w)) (calls w) (console w))) /\
      (forall fuel i w',
          Helper.getRandomIndex rt fuel array lastIndex w = (Ret i, w') ->
          0 <= i < len array /\ (1 < len array -> i <> lastIndex))) /\
  (forall (w : World Z),
      (1 < len array ->
       forall j fuel,
         rnd rt (random_draws w + j) (len array) <> store w ->
         (j < fuel)%nat ->
         exists i w',
           Utils.getRandomIndex rt fuel array w = (Ret i, w') /\
           0 <= i < len array /\ i <> store w /\ store w' = i) /\
      (len array = 1 ->
       forall fuel,
         Utils.getRandomIndex rt (Datatypes.S fuel) array w
         = (Ret 0, mkWorld 0 (clock_reads w)
                           (Datatypes.S (random_draws w)) (calls w) (console w)))).
Proof.
  split.
  - intros S lastIndex w. split.
    + intros Hn j fuel Hne Hj. unfold Helper.getRandomIndex.
      destruct (draw_loop_returns rt (len array) lastIndex Hn fuel j w Hj Hne)
        as (k & w' & Hrun & Hk & Hw).
      exists (rnd rt k (len array)), w'. auto.
    + split.
      * intros H1 fuel. unfold Helper.getRandomIndex. rewrite H1.
        rewrite draw_loop_single.
        replace (rnd rt (random_draws w) 1) with 0; [reflexivity|].
        specialize (Hrange (random_draws w)). rewrite H1 in Hrange. lia.
      * intros fuel i w' Hrun. unfold Helper.getRandomIndex in Hrun.
        apply draw_loop_sound in Hrun as ((k & ->) & Hne & _). auto.
  - intros w. split.
    + intros Hn j fuel Hne Hj. unfold Utils.getRandomIndex, bind, get_store.
      destruct (draw_loop_returns rt (len array) (store w) Hn fuel j w Hj Hne)
        as (k & w' & Hrun & Hk & Hw).
      rewrite Hrun. cbn. eexists _, _. split; [reflexivity|]. cbn. auto.
    + intros H1 fuel. unfold Utils.getRandomIndex, bind, get_store.
      rewrite H1, draw_loop_single. cbn.
      replace (rnd rt (random_draws w) 1) with 0; [reflexivity|].
      specialize (Hrange (random_draws w)). rewrite H1 in Hrange. lia.
Qed.

(** The theorem at work: two images, previous index 0, a generator whose
    first draw is 0 again and whose second draw is 1. *)
Lemma C2_getRandomIndex_avoids_previous_witness :
  exists i w',
    Helper.getRandomIndex Demo.offline 2 ["a.png"; "b.png"] 0 (Demo.world0 tt)
    = (Ret i, w') /\
    0 <= i < 2 /\ i <> 0 /\ only_draws (Demo.world0 tt) w'.
Proof.
  assert (Hrange : forall k, 0 <= rnd Demo.offline k (len ["a.png"; "b.png"])
                             < len ["a.png"; "b.png"]).
  { intros k. cbn. apply Z.mod_pos_bound. lia. }
  destruct (C2_getRandomIndex_avoids_previous Demo.offline ["a.png"; "b.png"] Hrange)
    as [Hhelper _].
  destruct (Hhelper unit 0 (Demo.world0 tt)) as [Hmany _].
  apply (Hmany ltac:(cbn; lia) 1%nat 2%nat).
  - cbn. lia.
  - lia.
Defined.

(** ** The status publisher never throws *)

(** Unfolding of the monad's plumbing. *)
Ltac unfold_monad :=
  unfold fetch, lift, resp_json, resp_blob, resp_text, await_fetch in *;
  unfold bind, ret, throw, diverge, try_catch, say, get_store, modify_store,
    fetch_start, date_now, random_below in *.

(** Case analysis on the scrutinee of the first [match] of the goal. *)
Ltac case_step :=
  match goal with
  | |- context [match ?x with _ => _ end] =>
      lazymatch x with
      | context [match _ with _ => _ end] => fail
      | _ => destruct x eqn:?
      end
  end.

Section Publisher.
Variable rt : Runtime.
Context {S : Type}.

Lemma same_store_refl (w : World S) : same_store w w.
Proof. repeat split. Qed.

Lemma same_store_trans (w1 w2 w3 : World S) :
  same_store w1 w2 -> same_store w2 w3 -> same_store w1 w3.
Proof.
  unfold same_store. intros (A & B & C) (D & E & F).
  repeat split; congruence.
Qed.

(** [check_ok] passes exactly when [data.ok] is truthy, and throws
    otherwise; it leaves the world alone. *)
Lemma check_ok_cases (data : value) (fallback : string) (w : World S) :
  (Slack.check_ok data fallback w = (Ret tt, w) /\
   exists v, get_prop data "ok" = inr v /\ truthy v = true) \/
  (exists e, Slack.check_ok data fallback w = (Throw e, w)).
Proof.
  unfold Slack.check_ok. unfold_monad.
  destruct (get_prop data "ok") as [e|v] eqn:Hok; [right; eauto|].
  destruct (truthy v) eqn:Hv; cbn.
  - left. eauto.
  - right. destruct (get_prop data "error"); eauto.
Qed.

Ltac finish_total := eexists _, _; (split; [reflexivity|repeat split]).

Lemma updateSlackPhoto_resume_total (image : value) (token : string)
      (p : FetchOutcome) (w : World S) :
  exists b w',
    Slack.updateSlackPhoto_resume rt image token p w = (Ret b, w') /\
    same_store w w'.
Proof.
  unfold Slack.updateSlackPhoto_resume. unfold_monad.
  destruct p as [|r]; [finish_total|].
  destruct (blob_body r); [|finish_total].
  destruct (net rt _ _) as [|r2]; [finish_total|].
  destruct (json_body r2) as [data|]; [|finish_total].
  match goal with
  | |- context [Slack.check_ok ?d ?f ?w0] =>
      destruct (check_ok_cases d f w0) as [[-> _]|[e ->]]
  end; finish_total.
Qed.

Lemma updateSlackStatus_resume_total
      (p : option (Slack.Status * FetchOutcome)) (w : World S) :
  exists b w',
    Slack.updateSlackStatus_resume p w = (Ret b, w') /\
    same_store w w'.
Proof.
  unfold Slack.updateSlackStatus_resume. unfold_monad.
  destruct p as [[st [|r]]|]; try finish_total.
  destruct (json_body r) as [data|]; [|finish_total].
  match goal with
  | |- context [Slack.check_ok ?d ?f ?w0] =>
      destruct (check_ok_cases d f w0) as [[-> _]|[e ->]]
  end; finish_total.
Qed.

Lemma updateSlackStatus_start_total
      (status : option Slack.Status) (token : string) (w : World S) :
  exists p w',
    Slack.updateSlackStatus_start rt status token w = (Ret p, w') /\
    same_store w w'.
Proof.
  unfold Slack.updateSlackStatus_start. unfold_monad.
  destruct status; finish_total.
Qed.

End Publisher.

(** ** Sequencing *)

Lemma bind_Ret {S A B : Type} (m : M S A) (k : A -> M S B)
      (w w' : World S) (a : A) :
  m w = (Ret a, w') -> bind m k w = k a w'.
Proof. intros H. unfold bind. rewrite H. reflexivity. Qed.

Lemma bind_Throw {S A B : Type} (m : M S A) (k : A -> M S B)
      (w w' : World S) (e : exn) :
  m w = (Throw e, w') -> bind m k w = (Throw e, w').
Proof. intros H. unfold bind. rewrite H. reflexivity. Qed.

Lemma len_nonempty {A : Type} (l : list A) : l <> [] -> 0 < len l.
Proof. destruct l; [congruence|]. intros _. unfold len. cbn [List.length]. lia. Qed.

(** ** Rotation mode *)

Section RotationMode.
Variable rt : Runtime.
Variable SLACK_APP_TOKEN : string.
Variable images : list string.
Variable statuses : list Slack.Status.

Local Abbreviation cycleProfile := (Rotation.cycleProfile rt SLACK_APP_TOKEN images statuses).
Local Abbreviation cycles := (Rotation.cycles rt SLACK_APP_TOKEN images statuses).

Lemma cycleProfile_empty (fuel : nat) (w : World Rotation.Store) :
  images = [] \/ statuses = [] ->
  cycleProfile fuel w
  = (Ret tt,
     mkWorld (store w) (clock_reads w) (random_draws w) (calls w)
             (console w ++ [(Warn, "No images or statuses available for cycling.")])).
Proof.
  intros H. unfold Rotation.cycleProfile.
  replace ((len images =? 0) || (len statuses =? 0)) with true; [reflexivity|].
  destruct H as [-> | ->]; cbn; [reflexivity|]. now rewrite orb_true_r.
Qed.

Lemma cycleProfile_advances (fuel : nat) (w : World Rotation.Store) :
  images <> [] -> statuses <> [] ->
  (forall k, 0 <= rnd rt k (len images) < len images) ->
  Rotation.lastImageIndex (store w) = -1 ->
  0 <= Rotation.currentStatusIndex (store w) < len statuses ->
  exists w',
    cycleProfile (Datatypes.S fuel) w = (Ret tt, w') /\
    Rotation.currentStatusIndex (store w')
    = (Rotation.currentStatusIndex (store w) + 1) mod len statuses /\
    Rotation.lastImageIndex (store w') = -1.
Proof.
  intros Hi Hs Hrange Hlast Hcur.
  pose proof (len_nonempty _ Hi) as Hli. pose proof (len_nonempty _ Hs) as Hls.
  unfold Rotation.cycleProfile.
  replace ((len images =? 0) || (len statuses =? 0)) with false
    by (symmetry; apply orb_false_iff; split; apply Z.eqb_neq; lia).
  erewrite bind_Ret by reflexivity.
  (* the draw: the previous index is the sentinel, so the first draw ends the loop *)
  erewrite bind_Ret.
  2:{ unfold Helper.getRandomIndex. cbn [Helper.draw_loop].
      unfold bind at 1. unfold random_below at 1.
      replace (rnd rt (random_draws w) (len images)
               =? Rotation.lastImageIndex (store w)) with false.
      - cbn. reflexivity.
      - symmetry. apply Z.eqb_neq. rewrite Hlast.
        specialize (Hrange (random_draws w)). lia. }
  set (w1 := mkWorld _ _ _ _ _).
  set (imageUrl := Rotation.image_value images _).
  erewrite bind_Ret by reflexivity.
  set (w2 := mkWorld _ _ _ _ _).
  destruct (updateSlackStatus_start_total rt
              (index_at statuses (Rotation.currentStatusIndex (store w)))
              SLACK_APP_TOKEN w2) as (p2 & w3 & Hstart & Hw3).
  erewrite bind_Ret by exact Hstart.
  destruct (updateSlackPhoto_resume_total rt imageUrl SLACK_APP_TOKEN
              (net rt (List.length (calls w1)) (Slack.image_request imageUrl)) w3)
    as (b1 & w4 & Hphoto & Hw4).
  erewrite bind_Ret by (unfold Rotation.settle; rewrite Hphoto; reflexivity).
  destruct (updateSlackStatus_resume_total p2 w4) as (b2 & w5 & Hstatus & Hw5).
  erewrite bind_Ret by (unfold Rotation.settle; rewrite Hstatus; reflexivity).
  cbn [Rotation.is_rejected].
  erewrite bind_Ret by reflexivity.
  erewrite bind_Ret by reflexivity.
  unfold modify_store. eexists; split; [reflexivity|].
  assert (Hst : store w5 = store w).
  { destruct Hw3 as (E3 & _), Hw4 as (E4 & _), Hw5 as (E5 & _).
    rewrite E5, E4, E3. reflexivity. }
  cbn [store Rotation.currentStatusIndex Rotation.lastImageIndex].
  rewrite Hst. split; [|assumption].
  apply Z.rem_mod_nonneg; lia.
Qed.

Lemma cycles_preserve_inv (fuel : nat) :
  images <> [] -> statuses <> [] ->
  (forall k, 0 <= rnd rt k (len images) < len images) ->
  forall (n : nat) (w : World Rotation.Store),
    rotation_inv statuses (store w) ->
    exists w', cycles (Datatypes.S fuel) n w = (Ret tt, w') /\
               rotation_inv statuses (store w').
Proof.
  intros Hi Hs Hrange. pose proof (len_nonempty _ Hs) as Hls.
  induction n as [|n IH]; intros w [Hlast Hcur].
  - exists w. split; [reflexivity|split; assumption].
  - cbn [Rotation.cycles].
    destruct (cycleProfile_advances fuel w Hi Hs Hrange Hlast Hcur)
      as (w1 & Hrun & Hnext & Hlast1).
    erewrite bind_Ret by exact Hrun.
    apply IH. split; [assumption|].
    rewrite Hnext. apply Z.mod_pos_bound. lia.
Qed.
End RotationMode.

(** C9 (animate_profile_pic.ts, [cycleProfile]).  If the image list or
    the status list is empty, a cycle only writes the warning: no index
    is drawn, no request leaves, and the store (the status cursor with
    it) is unchanged.  Over non-empty lists, with draws that lie in
    [[0, images.length)], every cycle returns, moves the status cursor
    to [(cursor + 1) mod statuses.length] and keeps it an index of
    [statuses]; hence after any number of cycles from the initial store
    the cursor is in [[0, statuses.length)]. *)
Theorem C9_cycleProfile_cursor
  (rt : Runtime) (SLACK_APP_TOKEN : string)
  (images : list string) (statuses : list Slack.Status) :
  (images = [] \/ statuses = [] ->
   forall fuel (w : World Rotation.Store),
     Rotation.cycleProfile rt SLACK_APP_TOKEN images statuses fuel w
     = (Ret tt,
        mkWorld (store w) (clock_reads w) (random_draws w) (calls w)
                (console w ++ [(Warn, "No images or statuses available for cycling.")])))
  /\
  (images <> [] -> statuses <> [] ->
   (forall k, 0 <= rnd rt k (len images) < len images) ->
   (forall fuel (w : World Rotation.Store),
       rotation_inv statuses (store w) ->
       exists w',
         Rotation.cycleProfile rt SLACK_APP_TOKEN images statuses (Datatypes.S fuel) w
         = (Ret tt, w') /\
         Rotation.currentStatusIndex (store w')
         = (Rotation.currentStatusIndex (store w) + 1) mod len statuses /\
         rotation_inv statuses (store w')) /\
   (forall fuel n,
       exists w',
         Rotation.cycles rt SLACK_APP_TOKEN images statuses (Datatypes.S fuel) n
                         (Demo.world0 Rotation.initial)
         = (Ret tt, w') /\
         0 <= Rotation.currentStatusIndex (store w') < len statuses)).
Proof.
  split.
  - intros H fuel w. apply cycleProfile_empty. exact H.
  - intros Hi Hs Hrange. pose proof (len_nonempty _ Hs) as Hls. split.
    + intros fuel w [Hlast Hcur].
      destruct (cycleProfile_advances rt SLACK_APP_TOKEN images statuses
                  fuel w Hi Hs Hrange Hlast Hcur) as (w' & Hrun & Hnext & Hlast').
      exists w'. split; [exact Hrun|]. split; [exact Hnext|].
      split; [exact Hlast'|]. rewrite Hnext. apply Z.mod_pos_bound. lia.
    + intros fuel n.
      destruct (cycles_preserve_inv rt SLACK_APP_TOKEN images statuses fuel
                  Hi Hs Hrange n (Demo.world0 Rotation.initial))
        as (w' & Hrun & _ & Hcur).
      * split; cbn; [reflexivity|lia].
      * exists w'. auto.
Qed.

(** The scenario of two images and one status: the first cycle returns
    and the cursor wraps to 0. *)
Lemma C9_cycleProfile_cursor_witness :
  exists w',
    Rotation.cycleProfile Demo.offline "xoxp-token" ["a.png"; "b.png"]
                          [{| Slack.text := "X"; Slack.emoji := ":x:" |}] 1
                          (Demo.world0 Rotation.initial)
    = (Ret tt, w') /\
    Rotation.currentStatusIndex (store w') = 0.
Proof.
  destruct (C9_cycleProfile_cursor Demo.offline "xoxp-token" ["a.png"; "b.png"]
              [{| Slack.text := "X"; Slack.emoji := ":x:" |}]) as [_ Hcycle].
  destruct Hcycle as [Hstep _].
  - discriminate.
  - discriminate.
  - intros k. cbn. apply Z.mod_pos_bound. lia.
  - destruct (Hstep 0%nat (Demo.world0 Rotation.initial)) as (w' & Hrun & Hnext & _).
    + split; cbn; [reflexivity|lia].
    + exists w'. split; [exact Hrun|]. rewrite Hnext. reflexivity.
Defined.

(** ** The token store *)

Lemma try_catch_Ret {S A : Type} (body : M S A) (handler : exn -> M S A)
      (w w' : World S) (a : A) :
  body w = (Ret a, w') -> try_catch body handler w = (Ret a, w').
Proof. intros H. unfold try_catch. rewrite H. reflexivity. Qed.

Lemma try_catch_Throw {S A : Type} (body : M S A) (handler : exn -> M S A)
      (w w' : World S) (e : exn) :
  body w = (Throw e, w') -> try_catch body handler w = handler e w'.
Proof. intros H. unfold try_catch. rewrite H. reflexivity. Qed.

Lemma get_prop_object (props : list (string * value)) (k : string) :
  get_prop (VObj props) k = inr (assoc k props).
Proof. reflexivity. Qed.

Lemma get_prop_present (v : value) (k : string) :
  nullish v = false -> get_prop v k = inr (opt_prop v k).
Proof. destruct v; cbn; intros H; try discriminate; reflexivity. Qed.

Lemma truthy_not_nullish (v : value) : truthy v = true -> nullish v = false.
Proof. destruct v; cbn; intros H; try discriminate; reflexivity. Qed.

Section TokenStore.
Variable rt : Runtime.
Variable cfg : Spotify.Config.

Local Abbreviation refreshSpotifyToken := (Spotify.refreshSpotifyToken rt cfg).

Lemma token_still_valid_run (w : World Spotify.TokenStorage) :
  Spotify.token_still_valid rt w = (Ret (token_valid rt w), after_validity_test w).
Proof.
  unfold Spotify.token_still_valid, token_valid, after_validity_test.
  unfold_monad. destruct (truthy (Spotify.accessToken (store w))); reflexivity.
Qed.

Lemma store_after_validity_test (w : World Spotify.TokenStorage) :
  store (after_validity_test w) = store w /\
  calls (after_validity_test w) = calls w /\
  console (after_validity_test w) = console w.
Proof.
  unfold after_validity_test.
  destruct (truthy (Spotify.accessToken (store w))); repeat split.
Qed.

(** The fast path. *)
Lemma refresh_fast_path (w : World Spotify.TokenStorage) :
  token_valid rt w = true ->
  refreshSpotifyToken w = (Ret (Spotify.accessToken (store w)), tick w).
Proof.
  intros Hv. unfold Spotify.refreshSpotifyToken.
  erewrite bind_Ret by apply token_still_valid_run.
  rewrite Hv. unfold after_validity_test.
  apply andb_true_iff in Hv as [-> _]. reflexivity.
Qed.

(** No valid access token and no refresh token. *)
Lemma refresh_unauthenticated (w : World Spotify.TokenStorage) :
  token_valid rt w = false ->
  truthy (Spotify.refreshToken (store w)) = false ->
  refreshSpotifyToken w
  = (Ret VNull, said Error "No refresh token available" (after_validity_test w)).
Proof.
  intros Hv Hr. unfold Spotify.refreshSpotifyToken.
  erewrite bind_Ret by apply token_still_valid_run.
  rewrite Hv. erewrite bind_Ret by reflexivity.
  destruct (store_after_validity_test w) as (-> & _).
  rewrite Hr. reflexivity.
Qed.

(** No valid access token, a refresh token, and a refresh that fails. *)
Lemma refresh_failed (w : World Spotify.TokenStorage) :
  token_valid rt w = false ->
  truthy (Spotify.refreshToken (store w)) = true ->
  request_fails
    (net rt (List.length (calls w))
         (Spotify.refresh_request rt cfg (Spotify.refreshToken (store w)))) = true ->
  exists line,
    refreshSpotifyToken w
    = (Ret VNull,
       said Error line
            (sent (Spotify.refresh_request rt cfg (Spotify.refreshToken (store w)))
                  (after_validity_test w))).
Proof.
  intros Hv Hr Hfail. unfold Spotify.refreshSpotifyToken.
  erewrite bind_Ret by apply token_still_valid_run.
  rewrite Hv. erewrite bind_Ret by reflexivity.
  destruct (store_after_validity_test w) as (Hs & Hc & _).
  rewrite Hs, Hr. cbn [negb]. rewrite <- Hc in Hfail.
  unfold said, sent. unfold_monad.
  destruct (net rt _ _) as [|r]; [eexists; reflexivity|].
  cbn in Hfail.
  destruct (json_body r); [|eexists; reflexivity].
  apply negb_true_iff in Hfail. rewrite Hfail. eexists; reflexivity.
Qed.

(** No valid access token, a refresh token, and a refresh that the
    provider grants with the body [data]. *)
Lemma refresh_granted (w : World Spotify.TokenStorage)
      (r : HttpResponse) (data : value) :
  token_valid rt w = false ->
  truthy (Spotify.refreshToken (store w)) = true ->
  net rt (List.length (calls w))
      (Spotify.refresh_request rt cfg (Spotify.refreshToken (store w))) = Resolves r ->
  ok r = true ->
  json_body r = Some data ->
  nullish data = false ->
  exists w',
    refreshSpotifyToken w = (Ret (opt_prop data "access_token"), w') /\
    Spotify.accessToken (store w') = opt_prop data "access_token" /\
    Spotify.tokenExpiry (store w')
    = num_add (Fin (clock rt (clock_reads (after_validity_test w))))
              (num_mul (to_number (StringToNumber rt) (opt_prop data "expires_in"))
                       (Fin 1000)) /\
    Spotify.refreshToken (store w')
    = js_or (opt_prop data "refresh_token") (Spotify.refreshToken (store w)).
Proof.
  intros Hv Hr Hnet Hok Hjson Hdata. unfold Spotify.refreshSpotifyToken.
  erewrite bind_Ret by apply token_still_valid_run.
  rewrite Hv. erewrite bind_Ret by reflexivity.
  destruct (store_after_validity_test w) as (Hs & Hc & _).
  rewrite Hs, Hr. cbn [negb]. rewrite <- Hc in Hnet.
  unfold_monad. rewrite Hnet, Hjson, Hok.
  rewrite !(get_prop_present _ _ Hdata). cbn [store]. rewrite Hs.
  unfold js_or.
  destruct (truthy (opt_prop data "refresh_token"));
    eexists; (split; [reflexivity|]); cbn; auto.
Qed.
(** The same grant: the whole store and the requests afterwards. *)
Lemma refresh_granted_run (w : World Spotify.TokenStorage)
      (r : HttpResponse) (data : value) :
  token_valid rt w = false ->
  truthy (Spotify.refreshToken (store w)) = true ->
  net rt (List.length (calls w))
      (Spotify.refresh_request rt cfg (Spotify.refreshToken (store w))) = Resolves r ->
  ok r = true ->
  json_body r = Some data ->
  nullish data = false ->
  exists w',
    Spotify.refreshSpotifyToken rt cfg w = (Ret (opt_prop data "access_token"), w') /\
    store w' = Criteria.refreshed rt (clock rt (clock_reads (after_validity_test w))) data (store w) /\
    calls w' = (calls w ++ [Spotify.refresh_request rt cfg
                              (Spotify.refreshToken (store w))])%list.
Proof.
  intros Hv Hr Hnet Hok Hjson Hdata. unfold Spotify.refreshSpotifyToken.
  erewrite bind_Ret by apply token_still_valid_run.
  rewrite Hv. erewrite bind_Ret by reflexivity.
  destruct (store_after_validity_test w) as (Hs & Hc & _).
  rewrite Hs, Hr. cbn [negb]. rewrite <- Hc in Hnet.
  unfold_monad. rewrite Hnet, Hjson, Hok.
  rewrite !(get_prop_present _ _ Hdata). cbn [store]. rewrite Hs.
  unfold Criteria.refreshed, js_or.
  destruct (truthy (opt_prop data "refresh_token"));
    eexists; (split; [reflexivity|]); cbn; rewrite Hc; auto.
Qed.

End TokenStore.






(** C5 ([refreshSpotifyToken], the fast path).  Whenever the stored
    access token is present (not [null]; for a token string, not empty)
    and its expiry is strictly later than the clock, the call returns
    that token, the store is untouched and no request leaves; so two
    calls in a row, the token being valid at both, return the same token
    twice and issue no request at all. *)
Theorem C5_fast_path_idempotent
  (rt : Runtime) (cfg : Spotify.Config) (w : World Spotify.TokenStorage)
  (Hvalid : token_valid rt w = true) :
  Spotify.refreshSpotifyToken rt cfg w
  = (Ret (Spotify.accessToken (store w)), tick w) /\
  store (tick w) = store w /\ calls (tick w) = calls w /\
  (token_valid rt (tick w) = true ->
   bind (Spotify.refreshSpotifyToken rt cfg)
        (fun first =>
           bind (Spotify.refreshSpotifyToken rt cfg)
                (fun second => ret (first, second))) w
   = (Ret (Spotify.accessToken (store w), Spotify.accessToken (store w)),
      tick (tick w)) /\
   calls (tick (tick w)) = calls w).
Proof.
  split; [apply refresh_fast_path; exact Hvalid|].
  split; [reflexivity|]. split; [reflexivity|].
  intros Hvalid'. split; [|reflexivity].
  erewrite bind_Ret by (apply refresh_fast_path; exact Hvalid).
  erewrite bind_Ret by (apply refresh_fast_path; exact Hvalid').
  reflexivity.
Qed.

(** A token that expires at 5000 while the clock reads 1000. *)
Lemma C5_fast_path_idempotent_witness :
  Spotify.refreshSpotifyToken Demo.offline Demo.cfg
                              (Demo.world0 (Demo.authenticated 5000))
  = (Ret (VStr "tok"), tick (Demo.world0 (Demo.authenticated 5000))) /\
  calls (tick (tick (Demo.world0 (Demo.authenticated 5000)))) = [].
Proof.
  destruct (C5_fast_path_idempotent Demo.offline Demo.cfg
              (Demo.world0 (Demo.authenticated 5000)) eq_refl)
    as (Hrun & _ & _ & Htwice).
  split; [exact Hrun|].
  destruct (Htwice eq_refl) as [_ Hcalls]. exact Hcalls.
Defined.

(** ** The track poller *)

Section Poller.
Variable rt : Runtime.
Variable cfg : Spotify.Config.

Local Abbreviation getCurrentlyPlaying := (Spotify.getCurrentlyPlaying rt cfg).

Lemma poll_unauthenticated (w w1 : World Spotify.TokenStorage) (token : value) :
  Spotify.refreshSpotifyToken rt cfg w = (Ret token, w1) ->
  truthy token = false ->
  getCurrentlyPlaying w = (Ret VNull, w1).
Proof.
  intros Hrefresh Htoken. unfold Spotify.getCurrentlyPlaying.
  erewrite bind_Ret by exact Hrefresh. rewrite Htoken. reflexivity.
Qed.

Lemma poll_204 (w w1 : World Spotify.TokenStorage) (token : value)
      (r : HttpResponse) :
  Spotify.refreshSpotifyToken rt cfg w = (Ret token, w1) ->
  truthy token = true ->
  net rt (List.length (calls w1)) (Spotify.now_playing_request token) = Resolves r ->
  status r = 204 ->
  getCurrentlyPlaying w = (Ret Spotify.not_playing, polled token w1).
Proof.
  intros Hrefresh Htoken Hnet Hstatus. unfold Spotify.getCurrentlyPlaying.
  erewrite bind_Ret by exact Hrefresh. rewrite Htoken. cbn [negb].
  unfold polled, said, sent. unfold_monad. cbn [calls]. rewrite Hnet, Hstatus. reflexivity.
Qed.

Lemma poll_200 (w w1 : World Spotify.TokenStorage) (token : value)
      (r : HttpResponse) (data : value) :
  Spotify.refreshSpotifyToken rt cfg w = (Ret token, w1) ->
  truthy token = true ->
  net rt (List.length (calls w1)) (Spotify.now_playing_request token) = Resolves r ->
  status r = 200 ->
  json_body r = Some data ->
  getCurrentlyPlaying w
  = match Spotify.track_of data with
    | inr track => (Ret track, said Log "{ data }" (polled token w1))
    | inl _ => (Ret VNull,
                said Error "Failed to fetch currently playing:"
                     (said Log "{ data }" (polled token w1)))
    end.
Proof.
  intros Hrefresh Htoken Hnet Hstatus Hjson. unfold Spotify.getCurrentlyPlaying.
  erewrite bind_Ret by exact Hrefresh. rewrite Htoken. cbn [negb].
  unfold ok, polled, said, sent. unfold_monad. cbn [calls]. rewrite Hnet, Hstatus, Hjson. cbn.
  destruct (Spotify.track_of data); reflexivity.
Qed.

End Poller.

(** C7 ([getCurrentlyPlaying], HTTP 204).  When a token is available and
    the now-playing endpoint answers 204, the poll returns the object
    [{ isPlaying: false }]: its only property is [isPlaying], every other
    field (track name, artist, album, URLs, art variants) is absent; the
    token store is as the token refresh left it. *)
Theorem C7_poll_204_not_playing
  (rt : Runtime) (cfg : Spotify.Config)
  (w w1 : World Spotify.TokenStorage) (token : value) (r : HttpResponse)
  (Hrefresh : Spotify.refreshSpotifyToken rt cfg w = (Ret token, w1))
  (Htoken : truthy token = true)
  (Hnet : net rt (List.length (calls w1)) (Spotify.now_playing_request token)
          = Resolves r)
  (Hstatus : status r = 204) :
  exists w2,
    Spotify.getCurrentlyPlaying rt cfg w = (Ret (VObj [("isPlaying", VBool false)]), w2) /\
    store w2 = store w1 /\
    forall k, opt_prop (VObj [("isPlaying", VBool false)]) k
              = if (k =? "isPlaying")%string then VBool false else VUndefined.
Proof.
  exists (polled token w1). split; [|split].
  - apply (poll_204 rt cfg w w1 token r); assumption.
  - reflexivity.
  - intros k. cbn. destruct (k =? "isPlaying")%string; reflexivity.
Qed.

(** A valid token and a player that is idle. *)
Lemma C7_poll_204_not_playing_witness :
  exists w2,
    Spotify.getCurrentlyPlaying Demo.idle Demo.cfg (Demo.world0 (Demo.authenticated 5000))
    = (Ret (VObj [("isPlaying", VBool false)]), w2) /\
    store w2 = Demo.authenticated 5000.
Proof.
  destruct (C7_poll_204_not_playing Demo.idle Demo.cfg
              (Demo.world0 (Demo.authenticated 5000))
              (tick (Demo.world0 (Demo.authenticated 5000)))
              (VStr "tok") (Demo.bare_response 204)
              eq_refl eq_refl eq_refl eq_refl) as (w2 & Hrun & Hstore & _).
  exists w2. split; assumption.
Defined.

(** ** What a 200 body yields *)







Section Poller200.
Variable rt : Runtime.
Variable cfg : Spotify.Config.

End Poller200.




(** ** The callback route *)

Section Callback.
Variable rt : Runtime.
Variable cfg : Spotify.Config.


Lemma exchange_succeeded (c : string) (verifier : value)
      (w : World Spotify.TokenStorage) (r : HttpResponse) (tokenData : value) :
  net rt (List.length (calls w)) (Spotify.exchange_request cfg c verifier)
  = Resolves r ->
  ok r = true ->
  json_body r = Some tokenData ->
  Spotify.exchangeCodeForToken rt cfg c verifier w
  = (Ret tokenData, sent (Spotify.exchange_request cfg c verifier) w).
Proof.
  intros Hnet Hok Hjson. unfold Spotify.exchangeCodeForToken, sent. unfold_monad.
  rewrite Hnet, Hjson, Hok. reflexivity.
Qed.

Lemma code_present (req : Spotify.Request) (c : string) :
  Spotify.code_param req = Some c -> c <> "" ->
  Spotify.code_missing (Spotify.code_param req) = false.
Proof.
  intros -> Hc. cbn. apply String.eqb_neq. exact Hc.
Qed.



Lemma callback_exchange_succeeded (req : Spotify.Request) (c : string)
      (w : World Spotify.TokenStorage) (r : HttpResponse) (tokenData : value) :
  Spotify.code_param req = Some c -> c <> "" ->
  truthy (Spotify.codeVerifier (store w)) = true ->
  net rt (List.length (calls w))
      (Spotify.exchange_request cfg c (Spotify.codeVerifier (store w)))
  = Resolves r ->
  ok r = true ->
  json_body r = Some tokenData ->
  truthy tokenData = true ->
  Spotify.callback_route rt cfg req w
  = (Ret (Spotify.success "Authentication successful! You can now close this window."),
     tick (with_store (granted rt (clock rt (clock_reads w)) tokenData (store w))
                      (sent (Spotify.exchange_request cfg c
                               (Spotify.codeVerifier (store w))) w))).
Proof.
  intros Hcode Hc Hv Hnet Hok Hjson Htruthy. unfold Spotify.callback_route.
  rewrite (code_present req c Hcode Hc).
  erewrite bind_Ret by reflexivity. rewrite Hv. cbn [negb]. rewrite Hcode.
  erewrite bind_Ret by (apply (exchange_succeeded c _ w r tokenData); assumption).
  rewrite Htruthy. cbn [negb].
  pose proof (truthy_not_nullish _ Htruthy) as Hn.
  rewrite !(get_prop_present _ _ Hn).
  reflexivity.
Qed.

Lemma handler_callback (req : Spotify.Request) (w w' : World Spotify.TokenStorage)
      (resp : Spotify.Response) :
  (Spotify.req_method req =? "OPTIONS")%string = false ->
  Spotify.last_segment (Spotify.pathname req) = "callback" ->
  Spotify.callback_route rt cfg req w = (Ret resp, w') ->
  Spotify.handler rt cfg req w = (Ret resp, w').
Proof.
  intros Hm Hp Hrun. unfold Spotify.handler. rewrite Hm, Hp. cbn [String.eqb Ascii.eqb Bool.eqb].
  apply try_catch_Ret. exact Hrun.
Qed.
End Callback.

(** ** What the routes leave alone *)

Section Routes.
Variable rt : Runtime.
Variable cfg : Spotify.Config.



Lemma updateSlackStatus_total (st : Slack.Status) (token : string)
      (w : World Spotify.TokenStorage) :
  exists b w', Slack.updateSlackStatus rt (Some st) token w = (Ret b, w') /\ same_store w w'.
Proof.
  unfold Slack.updateSlackStatus.
  destruct (updateSlackStatus_start_total rt (Some st) token w) as (p & w1 & H1 & S1).
  erewrite bind_Ret by exact H1.
  destruct (updateSlackStatus_resume_total p w1) as (b & w2 & H2 & S2).
  exists b, w2. split; [exact H2|]. eapply same_store_trans; eassumption.
Qed.

Lemma updateStatus_total (trackInfo : value) (w : World Spotify.TokenStorage) :
  exists b w', Spotify.updateStatus rt cfg trackInfo w = (Ret b, w') /\ same_store w w'.
Proof.
  unfold Spotify.updateStatus.
  destruct (Spotify.SLACK_TOKEN cfg =? "")%string.
  { eexists _, _. split; [reflexivity|repeat split]. }
  unfold try_catch, bind at 1.
  destruct (truthy _).
  - unfold_monad. destruct (get_prop trackInfo "trackName"); [eexists _, _; split; [reflexivity|repeat split]|].
    destruct (get_prop trackInfo "artistName"); [eexists _, _; split; [reflexivity|repeat split]|].
    match goal with |- context [Slack.updateSlackStatus rt (Some ?st) ?t ?w0] =>
      destruct (updateSlackStatus_total st t w0) as (b & w2 & -> & S2) end.
    eexists _, _. split; [reflexivity|exact S2].
  - unfold_monad.
    match goal with |- context [Slack.updateSlackStatus rt (Some ?st) ?t ?w0] =>
      destruct (updateSlackStatus_total st t w0) as (b & w2 & -> & S2) end.
    eexists _, _. split; [reflexivity|exact S2].
Qed.

Lemma updateSlackPhoto_total (image : value) (token : string)
      (w : World Spotify.TokenStorage) :
  exists b w', Slack.updateSlackPhoto rt image token w = (Ret b, w') /\ same_store w w'.
Proof.
  unfold Slack.updateSlackPhoto, Slack.updateSlackPhoto_start.
  erewrite bind_Ret by reflexivity.
  match goal with |- context [Slack.updateSlackPhoto_resume rt ?i ?t ?p ?w0] =>
    destruct (updateSlackPhoto_resume_total rt i t p w0) as (b & w2 & -> & S2) end.
  exists b, w2. split; [reflexivity|]. exact S2.
Qed.







End Routes.



(** C6 (the [/callback] route, then [refreshSpotifyToken]).  After a
    callback whose exchange succeeds with an access token and a lifetime
    of [lifetime] seconds, the store holds that token with expiry
    [now + lifetime * 1000]; a call of [refreshSpotifyToken] that reads
    the clock before that expiry returns the freshly issued token, and
    no request leaves. *)
Theorem C6_exchange_then_fast_path
  (rt : Runtime) (cfg : Spotify.Config)
  (req : Spotify.Request) (w : World Spotify.TokenStorage)
  (c : string) (r : HttpResponse) (tokenData : value) (lifetime : Z)
  (Hmethod : (Spotify.req_method req =? "OPTIONS")%string = false)
  (Hpath : Spotify.last_segment (Spotify.pathname req) = "callback")
  (Hcode : Spotify.code_param req = Some c)
  (Hc : c <> "")
  (Hverifier : truthy (Spotify.codeVerifier (store w)) = true)
  (Hnet : net rt (List.length (calls w))
              (Spotify.exchange_request cfg c (Spotify.codeVerifier (store w)))
          = Resolves r)
  (Hok : ok r = true)
  (Hjson : json_body r = Some tokenData)
  (Htoken : truthy (opt_prop tokenData "access_token") = true)
  (Hlifetime : to_number (StringToNumber rt) (opt_prop tokenData "expires_in")
               = Fin lifetime)
  (Hsoon : clock rt (Datatypes.S (clock_reads w))
           < clock rt (clock_reads w) + lifetime * 1000) :
  exists w1,
    Spotify.handler rt cfg req w
    = (Ret (Spotify.success "Authentication successful! You can now close this window."),
       w1) /\
    Spotify.accessToken (store w1) = opt_prop tokenData "access_token" /\
    Spotify.tokenExpiry (store w1) = Fin (clock rt (clock_reads w) + lifetime * 1000) /\
    Spotify.refreshSpotifyToken rt cfg w1
    = (Ret (opt_prop tokenData "access_token"), tick w1) /\
    calls (tick w1) = calls w1.
Proof.
  assert (Htruthy : truthy tokenData = true).
  { destruct tokenData; try discriminate; reflexivity. }
  eexists. split.
  - apply handler_callback; [assumption..|].
    apply (callback_exchange_succeeded rt cfg req c w r tokenData); assumption.
  - cbn [store tick with_store granted Spotify.accessToken Spotify.tokenExpiry].
    rewrite Hlifetime. cbn [num_mul num_add].
    split; [reflexivity|]. split; [reflexivity|]. split; [|reflexivity].
    rewrite refresh_fast_path.
    + cbn. reflexivity.
    + unfold token_valid. cbn. rewrite Htoken, Hlifetime. cbn.
      apply Z.ltb_lt. exact Hsoon.
Qed.

(** The callback above, followed at once by a request for the token:
    the clock reads 1000 twice and the grant lasts 3600 seconds. *)
Lemma C6_exchange_then_fast_path_witness :
  exists w1,
    Spotify.handler Demo.idle Demo.cfg Demo.callback_request
                    (Demo.world0 Demo.awaiting_callback)
    = (Ret (Spotify.success "Authentication successful! You can now close this window."),
       w1) /\
    Spotify.refreshSpotifyToken Demo.idle Demo.cfg w1 = (Ret (VStr "fresh"), tick w1) /\
    calls (tick w1) = calls w1.
Proof.
  destruct (C6_exchange_then_fast_path Demo.idle Demo.cfg Demo.callback_request
              (Demo.world0 Demo.awaiting_callback) "abc"
              (Demo.json_response 200 Demo.token_grant) Demo.token_grant 3600
              eq_refl eq_refl eq_refl ltac:(discriminate) eq_refl eq_refl eq_refl
              eq_refl eq_refl eq_refl eq_refl)
    as (w1 & Hrun & _ & _ & Hfast & Hcalls).
  exists w1. repeat split; assumption.
Defined.

(** ** The set-token route *)

(** C10 ([handler], [POST /set-token]).  The supplied refresh token is
    written into the store before it is validated: the validating
    refresh request already carries it.  When no valid access token is
    stored and that refresh is rejected or the transport fails, the
    answer is [success: false] with status 400, and the store is the
    previous one with its refresh token replaced by the supplied one:
    whatever refresh token was stored before is gone, and nothing is
    rolled back. *)
Theorem C10_set_token_stores_before_validating
  (rt : Runtime) (cfg : Spotify.Config)
  (req : Spotify.Request) (w : World Spotify.TokenStorage)
  (body supplied : value)
  (Hmethod : Spotify.req_method req = "POST")
  (Hpath : Spotify.last_segment (Spotify.pathname req) = "set-token")
  (Hbody : Spotify.req_json req = Some body)
  (Hsupplied : get_prop body "refreshToken" = inr supplied)
  (Htruthy : truthy supplied = true)
  (Hinvalid : token_valid rt w = false)
  (Hfail : request_fails
             (net rt (List.length (calls w)) (Spotify.refresh_request rt cfg supplied))
           = true) :
  exists w',
    Spotify.handler rt cfg req w
    = (Ret {| Spotify.res_status := 400;
              Spotify.res_body :=
                VObj [("success", VBool false);
                      ("error",
                       VStr "Refresh token was set but could not be validated")] |},
       w') /\
    store w' = Spotify.set_refreshToken supplied (store w) /\
    Spotify.refreshToken (store w') = supplied /\
    calls w' = (calls w ++ [Spotify.refresh_request rt cfg supplied])%list.
Proof.
  unfold Spotify.handler. rewrite Hmethod, Hpath.
  cbn [String.eqb Ascii.eqb Bool.eqb andb].
  set (w1 := with_store (Spotify.set_refreshToken supplied (store w)) w).
  destruct (refresh_failed rt cfg w1) as [line Hrefresh]; [assumption..|].
  eexists. split.
  - apply try_catch_Ret. unfold Spotify.set_token_route.
    apply try_catch_Ret. rewrite Hbody.
    erewrite bind_Ret by reflexivity. rewrite Hsupplied.
    erewrite bind_Ret by reflexivity. rewrite Htruthy.
    erewrite bind_Ret by reflexivity.
    erewrite bind_Ret by exact Hrefresh.
    reflexivity.
  - destruct (store_after_validity_test w1) as (Hs & Hc & _).
    cbn [store calls said sent]. rewrite Hs, Hc. cbn. auto.
Qed.

(** A pasted refresh token while the stored access token has expired
    and the network is down. *)
Lemma C10_set_token_stores_before_validating_witness :
  exists w',
    Spotify.handler Demo.offline Demo.cfg Demo.set_token_request
                    (Demo.world0 (Demo.authenticated 500))
    = (Ret (Spotify.failure 400 "Refresh token was set but could not be validated"), w') /\
    Spotify.refreshToken (store w') = VStr "pasted".
Proof.
  destruct (C10_set_token_stores_before_validating Demo.offline Demo.cfg
              Demo.set_token_request (Demo.world0 (Demo.authenticated 500))
              (VObj [("refreshToken", VStr "pasted")]) (VStr "pasted")
              eq_refl eq_refl eq_refl eq_refl eq_refl eq_refl eq_refl)
    as (w' & Hrun & _ & Htoken & _).
  exists w'. split; assumption.
Defined.

(** ** Polling mode when nothing is playing *)

Section NothingPlaying.
Variable rt : Runtime.
Variable cfg : Spotify.Config.

(** [updateStatus({ isPlaying: false })] when Slack accepts the update. *)
Lemma updateStatus_clears (w : World Spotify.TokenStorage)
      (r : HttpResponse) (data : value) :
  Spotify.SLACK_TOKEN cfg <> "" ->
  net rt (List.length (calls w))
      (Slack.setStatus_request (Spotify.SLACK_TOKEN cfg) cleared_status)
  = Resolves r ->
  json_body r = Some data ->
  truthy (opt_prop data "ok") = true ->
  Spotify.updateStatus rt cfg Spotify.not_playing w
  = (Ret true,
     said Log "Successfully updated status to:  "
          (sent (Slack.setStatus_request (Spotify.SLACK_TOKEN cfg) cleared_status) w)).
Proof.
  intros Htoken Hnet Hjson Hok.
  unfold Spotify.updateStatus.
  apply String.eqb_neq in Htoken. rewrite Htoken.
  apply try_catch_Ret. cbn [Spotify.not_playing opt_prop assoc String.eqb Ascii.eqb
                             Bool.eqb js_and truthy].
  erewrite bind_Ret by reflexivity.
  erewrite bind_Ret; [reflexivity|].
  unfold Slack.updateSlackStatus, Slack.updateSlackStatus_start.
  erewrite bind_Ret.
  2:{ erewrite bind_Ret by reflexivity. reflexivity. }
  unfold Slack.updateSlackStatus_resume. apply try_catch_Ret.
  fold cleared_status. cbn [calls]. rewrite Hnet.
  erewrite bind_Ret by reflexivity.
  unfold resp_json. rewrite Hjson.
  erewrite bind_Ret by reflexivity.
  erewrite bind_Ret.
  2:{ unfold Slack.check_ok.
      assert (Hn : nullish data = false).
      { destruct data; try discriminate; reflexivity. }
      rewrite (get_prop_present _ _ Hn).
      erewrite bind_Ret by reflexivity. rewrite Hok. reflexivity. }
  reflexivity.
Qed.

(** The periodic update stops at the "not playing" test. *)
Lemma tick_stops_when_not_playing (w w1 : World Spotify.TokenStorage) :
  truthy (Spotify.refreshToken (store w)) = true ->
  Spotify.getCurrentlyPlaying rt cfg w = (Ret Spotify.not_playing, w1) ->
  Spotify.updateSpotifyStatus rt cfg w
  = (Ret tt, said Log "No track currently playing." w1).
Proof.
  intros Hr Hpoll. unfold Spotify.updateSpotifyStatus.
  erewrite bind_Ret by reflexivity. rewrite Hr. cbn [negb].
  apply try_catch_Ret.
  erewrite bind_Ret by exact Hpoll.
  reflexivity.
Qed.

(** The default route clears the status. *)
Lemma default_route_clears (w w1 : World Spotify.TokenStorage)
      (r : HttpResponse) (data : value) :
  Spotify.getCurrentlyPlaying rt cfg (said Log "Spotify tracker function called" w)
  = (Ret Spotify.not_playing, w1) ->
  Spotify.SLACK_TOKEN cfg <> "" ->
  net rt (List.length (calls w1))
      (Slack.setStatus_request (Spotify.SLACK_TOKEN cfg) cleared_status)
  = Resolves r ->
  json_body r = Some data ->
  truthy (opt_prop data "ok") = true ->
  Spotify.default_route rt cfg w
  = (Ret {| Spotify.res_status := 200;
            Spotify.res_body :=
              VObj [("success", VBool true);
                    ("currentlyPlaying", Spotify.not_playing);
                    ("slackUpdated",
                     VObj [("status", VBool true); ("photo", VBool false)])] |},
     said Log "Successfully updated status to:  "
          (sent (Slack.setStatus_request (Spotify.SLACK_TOKEN cfg) cleared_status) w1)).
Proof.
  intros Hpoll Htoken Hnet Hjson Hok. unfold Spotify.default_route.
  erewrite bind_Ret by reflexivity.
  erewrite bind_Ret by exact Hpoll.
  cbn [is_null Spotify.not_playing negb].
  erewrite bind_Ret.
  2:{ erewrite bind_Ret
        by (apply (updateStatus_clears w1 r data); assumption).
      reflexivity. }
  reflexivity.
Qed.

Lemma handler_default (req : Spotify.Request) (w w' : World Spotify.TokenStorage)
      (resp : Spotify.Response) :
  default_routed req = true ->
  Spotify.default_route rt cfg w = (Ret resp, w') ->
  Spotify.handler rt cfg req w = (Ret resp, w').
Proof.
  unfold default_routed. intros Hroute Hrun.
  apply andb_true_iff in Hroute as [Hroute Hset].
  apply andb_true_iff in Hroute as [Hroute Hcallback].
  apply andb_true_iff in Hroute as [Hoptions Hauth].
  apply negb_true_iff in Hoptions, Hauth, Hcallback, Hset.
  unfold Spotify.handler. rewrite Hoptions, Hauth, Hcallback, Hset.
  apply try_catch_Ret. exact Hrun.
Qed.
End NothingPlaying.

(** C1, as stated, fails for the periodic update.  A valid token is
    stored, the now-playing endpoint answers 204 and Slack would accept
    any update: the poll returns [{ isPlaying: false }], and
    [updateSpotifyStatus] returns having issued the now-playing request
    only.  No status update, cleared or otherwise, is sent. *)
Lemma C1_tick_sends_no_status_update :
  exists w1 w',
    Spotify.getCurrentlyPlaying Demo.idle Demo.cfg
                                (Demo.world0 (Demo.authenticated 5000))
    = (Ret (VObj [("isPlaying", VBool false)]), w1) /\
    Spotify.updateSpotifyStatus Demo.idle Demo.cfg
                                (Demo.world0 (Demo.authenticated 5000))
    = (Ret tt, w') /\
    calls w' = [Spotify.now_playing_request (VStr "tok")] /\
    ~ In (Slack.setStatus_request (Spotify.SLACK_TOKEN Demo.cfg) cleared_status)
         (calls w').
Proof.
  eexists. eexists.
  split; [vm_compute; reflexivity|].
  split; [vm_compute; reflexivity|].
  split; [reflexivity|].
  cbn. intros [H|[]]. discriminate H.
Qed.

(** C1, amended.  When the poll returns [{ isPlaying: false }] (the
    answer to HTTP 204): the periodic [updateSpotifyStatus] logs
    "No track currently playing." and returns without sending anything
    to Slack; the default route of [handler], given a Slack token and a
    response from Slack whose body has a truthy [ok], sends exactly one
    further request, the status update with empty text and empty emoji,
    sends no photo, and reports [slackUpdated: { status: true,
    photo: false }]. *)
Theorem C1_not_playing_tick_and_default_route
  (rt : Runtime) (cfg : Spotify.Config) :
  (forall (w w1 : World Spotify.TokenStorage),
      truthy (Spotify.refreshToken (store w)) = true ->
      Spotify.getCurrentlyPlaying rt cfg w = (Ret Spotify.not_playing, w1) ->
      exists w',
        Spotify.updateSpotifyStatus rt cfg w = (Ret tt, w') /\
        calls w' = calls w1 /\ store w' = store w1 /\
        console w' = (console w1 ++ [(Log, "No track currently playing.")])%list) /\
  (forall (req : Spotify.Request) (w w1 : World Spotify.TokenStorage)
          (r : HttpResponse) (data : value),
      default_routed req = true ->
      Spotify.getCurrentlyPlaying rt cfg (said Log "Spotify tracker function called" w)
      = (Ret Spotify.not_playing, w1) ->
      Spotify.SLACK_TOKEN cfg <> "" ->
      net rt (List.length (calls w1))
          (Slack.setStatus_request (Spotify.SLACK_TOKEN cfg) cleared_status)
      = Resolves r ->
      json_body r = Some data ->
      truthy (opt_prop data "ok") = true ->
      exists w',
        Spotify.handler rt cfg req w
        = (Ret {| Spotify.res_status := 200;
                  Spotify.res_body :=
                    VObj [("success", VBool true);
                          ("currentlyPlaying", VObj [("isPlaying", VBool false)]);
                          ("slackUpdated",
                           VObj [("status", VBool true); ("photo", VBool false)])] |},
           w') /\
        calls w'
        = (calls w1
           ++ [Slack.setStatus_request (Spotify.SLACK_TOKEN cfg) cleared_status])%list /\
        store w' = store w1).
Proof.
  split.
  - intros w w1 Hr Hpoll. eexists. split.
    + apply tick_stops_when_not_playing; eassumption.
    + cbn. auto.
  - intros req w w1 r data Hroute Hpoll Htoken Hnet Hjson Hok. eexists. split.
    + apply handler_default; [exact Hroute|].
      apply (default_route_clears rt cfg w w1 r data); assumption.
    + cbn. auto.
Qed.

(** [GET /] with a valid token while nothing is playing and Slack
    accepts the update. *)
Lemma C1_not_playing_tick_and_default_route_witness :
  exists w',
    Spotify.handler Demo.idle Demo.cfg Demo.root_request
                    (Demo.world0 (Demo.authenticated 5000))
    = (Ret {| Spotify.res_status := 200;
              Spotify.res_body :=
                VObj [("success", VBool true);
                      ("currentlyPlaying", VObj [("isPlaying", VBool false)]);
                      ("slackUpdated",
                       VObj [("status", VBool true); ("photo", VBool false)])] |},
       w') /\
    calls w' = [Spotify.now_playing_request (VStr "tok");
                Slack.setStatus_request "xoxp-token" cleared_status].
Proof.
  destruct (C1_not_playing_tick_and_default_route Demo.idle Demo.cfg) as [_ Hroute].
  destruct (Hroute Demo.root_request (Demo.world0 (Demo.authenticated 5000))
                   (polled (VStr "tok")
                           (tick (said Log "Spotify tracker function called"
                                       (Demo.world0 (Demo.authenticated 5000)))))
                   (Demo.json_response 200 (VObj [("ok", VBool true)]))
                   (VObj [("ok", VBool true)])
                   eq_refl eq_refl ltac:(discriminate) eq_refl eq_refl eq_refl)
    as (w' & Hrun & Hcalls & _).
  exists w'. split; [exact Hrun|]. rewrite Hcalls. reflexivity.
Defined.

(* ===================================================================== *)
(** * Further properties of the scripts *)
(* ===================================================================== *)

Import Criteria.

(** ** utils/slack.ts *)

Section SlackUpdates.
Variable rt : Runtime.
Context {S : Type}.

Lemma check_ok_passes_iff (data : value) (fallback : string) (w : World S) :
  (truthy (opt_prop data "ok") = true ->
   Slack.check_ok data fallback w = (Ret tt, w)) /\
  (truthy (opt_prop data "ok") = false ->
   exists e, Slack.check_ok data fallback w = (Throw e, w)).
Proof.
  unfold Slack.check_ok. unfold_monad.
  destruct data; cbn; split; intros H; try discriminate; eauto;
    rewrite H; cbn; eauto.
Qed.

Lemma updateSlackStatus_resume_exact (st : Slack.Status) (o : FetchOutcome)
      (w : World S) :
  exists level line,
    Slack.updateSlackStatus_resume (Some (st, o)) w
    = (Ret (platform_accepts o), said level line w).
Proof.
  unfold Slack.updateSlackStatus_resume, said. unfold_monad.
  destruct o as [|r]; cbn [platform_accepts]; [eexists _, _; reflexivity|].
  destruct (json_body r) as [data|]; [|eexists _, _; reflexivity].
  destruct (check_ok_passes_iff data "Failed to update status" w) as [Hyes Hno].
  destruct (truthy (opt_prop data "ok")).
  - rewrite (Hyes eq_refl). eexists _, _; reflexivity.
  - destruct (Hno eq_refl) as [e ->]. eexists _, _; reflexivity.
Qed.

Lemma updateSlackPhoto_resume_exact (image : value) (token : string)
      (o : FetchOutcome) (w : World S) :
  exists level line,
    Slack.updateSlackPhoto_resume rt image token o w
    = match image_blob o with
      | None => (Ret false, said level line w)
      | Some blob =>
          (Ret (platform_accepts
                  (net rt (List.length (calls w)) (Slack.setPhoto_request token blob))),
           said level line (sent (Slack.setPhoto_request token blob) w))
      end.
Proof.
  unfold Slack.updateSlackPhoto_resume, said, sent. unfold_monad.
  destruct o as [|r]; cbn [image_blob]; [eexists _, _; reflexivity|].
  destruct (blob_body r) as [blob|]; [|eexists _, _; reflexivity].
  cbn [calls].
  destruct (net rt _ _) as [|r2]; cbn [platform_accepts]; [eexists _, _; reflexivity|].
  destruct (json_body r2) as [data|]; [|eexists _, _; reflexivity].
  match goal with
  | |- context [Slack.check_ok data ?f ?w0] =>
      destruct (check_ok_passes_iff data f w0) as [Hyes Hno]
  end.
  destruct (truthy (opt_prop data "ok")).
  - rewrite (Hyes eq_refl). eexists _, _; reflexivity.
  - destruct (Hno eq_refl) as [e ->]. eexists _, _; reflexivity.
Qed.
End SlackUpdates.

Lemma updateSlackStatus_run
  (rt : Runtime) (S : Type) (status : Slack.Status) (token : string) (w : World S) :
  exists w',
    Slack.updateSlackStatus rt (Some status) token w
    = (Ret (platform_accepts
              (net rt (List.length (calls w)) (Slack.setStatus_request token status))),
       w') /\
    calls w' = (calls w ++ [Slack.setStatus_request token status])%list /\
    store w' = store w.
Proof.
  unfold Slack.updateSlackStatus, Slack.updateSlackStatus_start.
  erewrite bind_Ret by (erewrite bind_Ret by reflexivity; reflexivity).
  destruct (updateSlackStatus_resume_exact status
              (net rt (List.length (calls w)) (Slack.setStatus_request token status))
              (sent (Slack.setStatus_request token status) w))
    as (level & line & Hrun).
  eexists. split; [exact Hrun|]. cbn. auto.
Qed.


(** X1 ([updateSlackStatus]).  A status update sends exactly one
    request, the JSON post of the status to [users.profile.set] with the
    bearer token, never throws and leaves the store alone; it returns
    [true] exactly when that request is answered with a JSON body whose
    [ok] is truthy.  The HTTP status is not looked at: a 2xx answer with
    [ok: false] is a failure. *)
Theorem X1_updateSlackStatus_result
  (rt : Runtime) (S : Type) (status : Slack.Status) (token : string) (w : World S) :
  exists w',
    Slack.updateSlackStatus rt (Some status) token w
    = (Ret (platform_accepts
              (net rt (List.length (calls w)) (Slack.setStatus_request token status))),
       w') /\
    calls w' = (calls w ++ [Slack.setStatus_request token status])%list /\
    store w' = store w.
Proof.
  destruct (updateSlackStatus_run rt S status token w) as (w' & Hrun & Hcalls & Hstore).
  exists w'. split; [exact Hrun|]. split; assumption.
Qed.

Lemma updateSlackPhoto_run
  (rt : Runtime) (S : Type) (image : value) (token : string) (w : World S) :
  exists b w',
    Slack.updateSlackPhoto rt image token w = (Ret b, w') /\
    store w' = store w /\
    match image_blob (net rt (List.length (calls w)) (Slack.image_request image)) with
    | None =>
        b = false /\
        calls w' = (calls w ++ [Slack.image_request image])%list
    | Some blob =>
        b = platform_accepts
              (net rt (Datatypes.S (List.length (calls w)))
                   (Slack.setPhoto_request token blob)) /\
        calls w' = (calls w ++ [Slack.image_request image;
                                Slack.setPhoto_request token blob])%list
    end.
Proof.
  change (Slack.updateSlackPhoto rt image token w)
    with (Slack.updateSlackPhoto_resume rt image token
            (net rt (List.length (calls w)) (Slack.image_request image))
            (sent (Slack.image_request image) w)).
  destruct (updateSlackPhoto_resume_exact rt image token
              (net rt (List.length (calls w)) (Slack.image_request image))
              (sent (Slack.image_request image) w))
    as (level & line & Hrun).
  rewrite Hrun.
  destruct (image_blob _) as [blob|].
  - eexists _, _. split; [reflexivity|]. cbn [store said sent calls].
    split; [reflexivity|]. split.
    + rewrite length_app. cbn [List.length]. rewrite Nat.add_1_r. reflexivity.
    + rewrite <- app_assoc. reflexivity.
  - eexists _, _. split; [reflexivity|]. cbn. auto.
Qed.

(** X2 ([updateSlackPhoto]).  A photo update first requests the image.
    If that request fails or its body cannot be read, nothing is sent to
    Slack and the result is [false].  Otherwise the bytes are posted to
    [users.setPhoto], whatever the status of the image response was, and
    the result is [true] exactly when Slack answers with a JSON body
    whose [ok] is truthy.  The update never throws and leaves the store
    alone. *)
Theorem X2_updateSlackPhoto_result
  (rt : Runtime) (S : Type) (image : value) (token : string) (w : World S) :
  exists b w',
    Slack.updateSlackPhoto rt image token w = (Ret b, w') /\
    store w' = store w /\
    match image_blob (net rt (List.length (calls w)) (Slack.image_request image)) with
    | None =>
        b = false /\
        calls w' = (calls w ++ [Slack.image_request image])%list
    | Some blob =>
        b = platform_accepts
              (net rt (Datatypes.S (List.length (calls w)))
                   (Slack.setPhoto_request token blob)) /\
        calls w' = (calls w ++ [Slack.image_request image;
                                Slack.setPhoto_request token blob])%list
    end.
Proof.
  destruct (updateSlackPhoto_run rt S image token w) as (b & w' & Hrun & Hstore & Hcases).
  exists b, w'. split; [exact Hrun|]. split; assumption.
Qed.

(** ** PKCE: the verifier and the [/auth] route *)

Lemma get_in_range (s : string) :
  forall n, (n < String.length s)%nat -> exists c, String.get n s = Some c.
Proof.
  induction s as [|a s IH]; intros n Hn; cbn in Hn; [lia|].
  destruct n as [|n]; cbn; [eauto|]. apply IH. lia.
Qed.

Lemma charAt_in_range (s : string) (i : Z) :
  0 <= i < Z.of_nat (String.length s) ->
  exists c, Slack.charAt s i = String c EmptyString /\
            String.get (Z.to_nat i) s = Some c.
Proof.
  intros Hi. unfold Slack.charAt.
  replace (i <? 0) with false by (symmetry; apply Z.ltb_ge; lia).
  destruct (get_in_range s (Z.to_nat i)) as [c Hc]; [lia|].
  rewrite Hc. eauto.
Qed.

Lemma chars_from_cons (alphabet rest : string) (c : ascii) (j : nat) :
  String.get j alphabet = Some c ->
  chars_from alphabet rest ->
  chars_from alphabet (String c rest).
Proof.
  intros Hc Hrest [|i] c' Hget; cbn in Hget.
  - injection Hget as <-. eauto.
  - eapply Hrest. exact Hget.
Qed.

Section Verifier.
Variable rt : Runtime.
Context {S : Type}.
Hypothesis Hrange : forall k, 0 <= rnd rt k 62 < 62.

Lemma generateRandomString_run (n : nat) :
  forall w : World S,
    exists s,
      Slack.generateRandomString rt n w
      = (Ret s, mkWorld (store w) (clock_reads w) (random_draws w + n)
                        (calls w) (console w)) /\
      String.length s = n /\ chars_from Slack.possible s.
Proof.
  induction n as [|n IH]; intros w.
  - exists "". split; [|split].
    + cbn. rewrite Nat.add_0_r. destruct w; reflexivity.
    + reflexivity.
    + intros i c H. destruct i; discriminate H.
  - cbn [Slack.generateRandomString].
    change (Z.of_nat (String.length Slack.possible)) with 62.
    erewrite bind_Ret by reflexivity.
    set (w1 := mkWorld _ _ _ _ _).
    destruct (IH w1) as (rest & Hrun & Hlen & Hchars).
    erewrite bind_Ret by exact Hrun.
    destruct (charAt_in_range Slack.possible (rnd rt (random_draws w) 62))
      as (c & Hc & Hget); [exact (Hrange _)|].
    rewrite Hc. exists (String c rest). split; [|split].
    + unfold ret. cbn. rewrite Nat.add_succ_r. reflexivity.
    + cbn. rewrite Hlen. reflexivity.
    + eapply chars_from_cons; eassumption.
Qed.
End Verifier.

(** X3 ([generateRandomString]).  With draws
    [Math.floor(Math.random() * 62)] in [[0, 62)], the string generated
    for a requested length [n] has exactly [n] characters, each taken
    from the 62 letters and digits of [possible]; generating it takes
    exactly [n] draws and touches nothing else. *)
Theorem X3_generateRandomString_length_and_alphabet
  (rt : Runtime) (S : Type) (n : nat) (w : World S)
  (Hrange : forall k, 0 <= rnd rt k 62 < 62) :
  exists s,
    Slack.generateRandomString rt n w
    = (Ret s, mkWorld (store w) (clock_reads w) (random_draws w + n)
                      (calls w) (console w)) /\
    String.length s = n /\ chars_from Slack.possible s.
Proof.
  destruct (generateRandomString_run rt Hrange n w) as (s & Hrun & Hlen & Hchars).
  exists s. split; [exact Hrun|]. split; assumption.
Qed.

(** Three characters from draws 0, 1, 2. *)
Lemma X3_generateRandomString_length_and_alphabet_witness :
  exists s,
    Slack.generateRandomString Demo.offline 3 (Demo.world0 tt)
    = (Ret s, mkWorld tt 0 3 [] []) /\
    String.length s = 3%nat /\ chars_from Slack.possible s.
Proof.
  apply (X3_generateRandomString_length_and_alphabet Demo.offline unit 3
           (Demo.world0 tt)).
  intros k. cbn. apply Z.mod_pos_bound. lia.
Defined.

(** X4 ([handler], the [/auth] route, with [getAuthorizationUrl]).
    A request for [/auth] generates a verifier of 64 letters and digits,
    stores it as the pending verifier in place of whatever was pending
    before, and answers 200 with the authorization URL, whose query is
    built from the client id, response type [code], the redirect URI,
    method [S256], the challenge derived from that same verifier, and
    the scopes.  No request leaves and the stored tokens are untouched. *)
Theorem X4_auth_route_stores_fresh_verifier
  (rt : Runtime) (cfg : Spotify.Config)
  (req : Spotify.Request) (w : World Spotify.TokenStorage)
  (Hmethod : (Spotify.req_method req =? "OPTIONS")%string = false)
  (Hpath : Spotify.last_segment (Spotify.pathname req) = "auth")
  (Hrange : forall k, 0 <= rnd rt k 62 < 62) :
  exists verifier w',
    Spotify.handler rt cfg req w
    = (Ret {| Spotify.res_status := 200;
              Spotify.res_body :=
                VObj [("success", VBool true);
                      ("authUrl",
                       VStr (Spotify.SPOTIFY_AUTH_ENDPOINT ++ "?"
                             ++ encodeParams rt
                                  [("client_id", Spotify.CLIENT_ID cfg);
                                   ("response_type", "code");
                                   ("redirect_uri", Spotify.BASE_URL cfg ++ "/callback");
                                   ("code_challenge_method", "S256");
                                   ("code_challenge", sha256_base64 rt verifier);
                                   ("scope", Spotify.SPOTIFY_SCOPES)]));
                      ("message",
                       VStr "Please visit this URL to authorize the application")] |},
       w') /\
    String.length verifier = 64%nat /\
    chars_from Slack.possible verifier /\
    store w' = Spotify.set_codeVerifier (VStr verifier) (store w) /\
    calls w' = calls w.
Proof.
  destruct (generateRandomString_run rt Hrange 64 w) as (verifier & Hgen & Hlen & Hchars).
  exists verifier. eexists. split; [|split; [exact Hlen|split; [exact Hchars|]]].
  - unfold Spotify.handler. rewrite Hmethod, Hpath.
    cbn [String.eqb Ascii.eqb Bool.eqb].
    apply try_catch_Ret. unfold Spotify.auth_route, Spotify.getAuthorizationUrl.
    erewrite bind_Ret.
    2:{ erewrite bind_Ret by exact Hgen.
        unfold Slack.generateCodeChallenge.
        erewrite bind_Ret by reflexivity. reflexivity. }
    cbv beta iota. erewrite bind_Ret by reflexivity. reflexivity.
  - cbn. auto.
Qed.

(** [GET /auth] while an earlier verifier is still pending. *)
Lemma X4_auth_route_stores_fresh_verifier_witness :
  exists verifier w',
    fst (Spotify.handler Demo.offline Demo.cfg
           {| Spotify.req_method := "GET"; Spotify.pathname := "/auth";
              Spotify.code_param := None; Spotify.req_json := None |}
           (Demo.world0 Demo.awaiting_callback))
    = Ret {| Spotify.res_status := 200;
             Spotify.res_body :=
               VObj [("success", VBool true);
                     ("authUrl", VStr "https://accounts.spotify.com/authorize?");
                     ("message",
                      VStr "Please visit this URL to authorize the application")] |} /\
    String.length verifier = 64%nat /\
    Spotify.codeVerifier (store w') = VStr verifier /\
    calls w' = [].
Proof.
  destruct (X4_auth_route_stores_fresh_verifier Demo.offline Demo.cfg
              {| Spotify.req_method := "GET"; Spotify.pathname := "/auth";
                 Spotify.code_param := None; Spotify.req_json := None |}
              (Demo.world0 Demo.awaiting_callback) eq_refl eq_refl)
    as (verifier & w' & Hrun & Hlen & _ & Hstore & Hcalls).
  - intros k. cbn. apply Z.mod_pos_bound. lia.
  - exists verifier, w'. split; [rewrite Hrun; reflexivity|].
    split; [exact Hlen|]. split; [rewrite Hstore; reflexivity|exact Hcalls].
Defined.

(** ** Routing *)

Lemma append_snoc (cur rest : string) (c : ascii) :
  ((cur ++ String c EmptyString) ++ rest = cur ++ String c rest)%string.
Proof. induction cur as [|a cur IH]; cbn; [reflexivity|]. now rewrite IH. Qed.

Lemma last_segment_from_app (a b : string) :
  forall cur,
    Spotify.last_segment_from cur (a ++ b)
    = Spotify.last_segment_from (Spotify.last_segment_from cur a) b.
Proof.
  induction a as [|c a IH]; intros cur; cbn; [reflexivity|].
  destruct (Ascii.eqb c "/"); apply IH.
Qed.

Lemma last_segment_from_no_slash (s : string) :
  forall cur, no_slash s = true -> Spotify.last_segment_from cur s = (cur ++ s)%string.
Proof.
  induction s as [|c s IH]; intros cur Hs; cbn in *.
  - induction cur as [|a cur IHc]; cbn; [reflexivity|]. now rewrite <- IHc.
  - apply andb_true_iff in Hs as [Hc Hs]. apply negb_true_iff in Hc.
    rewrite Hc, IH by exact Hs. apply append_snoc.
Qed.

Lemma last_segment_from_clean (s : string) :
  forall cur, no_slash cur = true -> no_slash (Spotify.last_segment_from cur s) = true.
Proof.
  induction s as [|c s IH]; intros cur Hcur; cbn; [exact Hcur|].
  destruct (Ascii.eqb c "/") eqn:Hc; apply IH; [reflexivity|].
  clear IH. induction cur as [|a cur IHc]; cbn in *.
  - rewrite Hc. reflexivity.
  - apply andb_true_iff in Hcur as [Ha Hcur]. rewrite Ha. cbn. apply IHc. exact Hcur.
Qed.

(** X5 ([handler], [url.pathname.split("/").pop()]).  The route is
    chosen by the last segment of the path alone: whatever precedes the
    last ["/"] is ignored, so [prefix/segment] is routed like
    [/segment]; and the segment compared with the route names never
    contains a ["/"]. *)
Theorem X5_route_is_last_path_segment (prefix segment pathname : string)
  (Hsegment : no_slash segment = true) :
  Spotify.last_segment (prefix ++ "/" ++ segment) = segment /\
  no_slash (Spotify.last_segment pathname) = true.
Proof.
  split.
  - unfold Spotify.last_segment. rewrite last_segment_from_app. cbn.
    rewrite last_segment_from_no_slash by exact Hsegment. reflexivity.
  - apply last_segment_from_clean. reflexivity.
Qed.

(** A deployment under [/functions/v1]. *)
Lemma X5_route_is_last_path_segment_witness :
  Spotify.last_segment "/functions/v1/callback" = "callback".
Proof.
  exact (proj1 (X5_route_is_last_path_segment "/functions/v1" "callback" "" eq_refl)).
Defined.

(** ** The set-token and callback routes: inputs that are turned away *)

Lemma handler_set_token (rt : Runtime) (cfg : Spotify.Config)
      (req : Spotify.Request) (w w' : World Spotify.TokenStorage)
      (resp : Spotify.Response) :
  Spotify.req_method req = "POST" ->
  Spotify.last_segment (Spotify.pathname req) = "set-token" ->
  Spotify.set_token_route rt cfg req w = (Ret resp, w') ->
  Spotify.handler rt cfg req w = (Ret resp, w').
Proof.
  intros Hm Hp Hrun. unfold Spotify.handler. rewrite Hm, Hp.
  cbn [String.eqb Ascii.eqb Bool.eqb andb].
  apply try_catch_Ret. exact Hrun.
Qed.

(** X6 ([handler], [POST /set-token], malformed input).  If the body of
    the request cannot be read as JSON, or is the JSON [null], the
    answer is 400 "Invalid JSON body"; if the body has no [refreshToken]
    (or a falsy one), the answer is 400 "No refresh token provided".  In
    each case nothing is stored, no request leaves and nothing is
    logged. *)
Theorem X6_set_token_rejects_malformed_input
  (rt : Runtime) (cfg : Spotify.Config)
  (req : Spotify.Request) (w : World Spotify.TokenStorage)
  (Hmethod : Spotify.req_method req = "POST")
  (Hpath : Spotify.last_segment (Spotify.pathname req) = "set-token") :
  (Spotify.req_json req = None \/ Spotify.req_json req = Some VNull ->
   Spotify.handler rt cfg req w = (Ret (Spotify.failure 400 "Invalid JSON body"), w)) /\
  (forall body,
      Spotify.req_json req = Some body ->
      nullish body = false ->
      truthy (opt_prop body "refreshToken") = false ->
      Spotify.handler rt cfg req w
      = (Ret (Spotify.failure 400 "No refresh token provided"), w)).
Proof.
  split.
  - intros Hbody. apply handler_set_token; [assumption..|].
    unfold Spotify.set_token_route.
    destruct Hbody as [-> | ->]; reflexivity.
  - intros body Hbody Hpresent Hfalsy. apply handler_set_token; [assumption..|].
    unfold Spotify.set_token_route. rewrite Hbody.
    apply try_catch_Ret. erewrite bind_Ret by reflexivity.
    rewrite (get_prop_present _ _ Hpresent).
    erewrite bind_Ret by reflexivity. rewrite Hfalsy. reflexivity.
Qed.

(** [POST /set-token] with the body [{}]. *)
Lemma X6_set_token_rejects_malformed_input_witness :
  Spotify.handler Demo.offline Demo.cfg
    {| Spotify.req_method := "POST"; Spotify.pathname := "/set-token";
       Spotify.code_param := None; Spotify.req_json := Some (VObj []) |}
    (Demo.world0 (Demo.authenticated 500))
  = (Ret (Spotify.failure 400 "No refresh token provided"),
     Demo.world0 (Demo.authenticated 500)).
Proof.
  destruct (X6_set_token_rejects_malformed_input Demo.offline Demo.cfg
              {| Spotify.req_method := "POST"; Spotify.pathname := "/set-token";
                 Spotify.code_param := None; Spotify.req_json := Some (VObj []) |}
              (Demo.world0 (Demo.authenticated 500)) eq_refl eq_refl)
    as [_ Hmissing].
  apply (Hmissing (VObj [])); reflexivity.
Defined.

(** X7 ([handler], [POST /set-token], while a token is valid).  If the
    stored access token is still valid when a refresh token is
    supplied, the supplied token is stored and the answer is 200
    "Refresh token set and validated successfully", although no request
    was sent to the provider: the check found the old access token and
    stopped there. *)
Theorem X7_set_token_accepts_unchecked_while_token_valid
  (rt : Runtime) (cfg : Spotify.Config)
  (req : Spotify.Request) (w : World Spotify.TokenStorage)
  (body supplied : value)
  (Hmethod : Spotify.req_method req = "POST")
  (Hpath : Spotify.last_segment (Spotify.pathname req) = "set-token")
  (Hbody : Spotify.req_json req = Some body)
  (Hsupplied : get_prop body "refreshToken" = inr supplied)
  (Htruthy : truthy supplied = true)
  (Hvalid : token_valid rt w = true) :
  exists w',
    Spotify.handler rt cfg req w
    = (Ret (Spotify.success "Refresh token set and validated successfully"), w') /\
    store w' = Spotify.set_refreshToken supplied (store w) /\
    calls w' = calls w.
Proof.
  set (w1 := with_store (Spotify.set_refreshToken supplied (store w)) w).
  assert (Hfast : Spotify.refreshSpotifyToken rt cfg w1
                  = (Ret (Spotify.accessToken (store w1)), tick w1)).
  { apply refresh_fast_path. exact Hvalid. }
  eexists. split.
  - apply handler_set_token; [assumption..|].
    unfold Spotify.set_token_route. apply try_catch_Ret. rewrite Hbody.
    erewrite bind_Ret by reflexivity. rewrite Hsupplied.
    erewrite bind_Ret by reflexivity. rewrite Htruthy.
    erewrite bind_Ret by reflexivity.
    erewrite bind_Ret by exact Hfast.
    cbn [store w1 with_store Spotify.set_refreshToken Spotify.accessToken].
    apply andb_true_iff in Hvalid as [-> _]. reflexivity.
  - cbn. auto.
Qed.

(** A pasted refresh token while the stored token is valid until 5000
    and the network is down. *)
Lemma X7_set_token_accepts_unchecked_while_token_valid_witness :
  exists w',
    Spotify.handler Demo.offline Demo.cfg Demo.set_token_request
                    (Demo.world0 (Demo.authenticated 5000))
    = (Ret (Spotify.success "Refresh token set and validated successfully"), w') /\
    Spotify.refreshToken (store w') = VStr "pasted" /\
    calls w' = [].
Proof.
  destruct (X7_set_token_accepts_unchecked_while_token_valid Demo.offline Demo.cfg
              Demo.set_token_request (Demo.world0 (Demo.authenticated 5000))
              (VObj [("refreshToken", VStr "pasted")]) (VStr "pasted")
              eq_refl eq_refl eq_refl eq_refl eq_refl eq_refl)
    as (w' & Hrun & Hstore & Hcalls).
  exists w'. split; [exact Hrun|]. split; [rewrite Hstore; reflexivity|exact Hcalls].
Defined.

(** X8 ([handler], the [/callback] route, inputs turned away).  A
    callback without a [code] parameter, or with an empty one, is
    answered 400 "No authorization code provided" before the verifier is
    even looked at: the world is untouched and a pending verifier stays
    pending.  A callback whose exchange is answered 2xx with a body that
    is falsy (such as the JSON [null]) is answered 500 like a failed
    exchange, and the store is unchanged. *)
Theorem X8_callback_turns_away_missing_code_and_empty_grant
  (rt : Runtime) (cfg : Spotify.Config)
  (req : Spotify.Request) (w : World Spotify.TokenStorage)
  (Hmethod : (Spotify.req_method req =? "OPTIONS")%string = false)
  (Hpath : Spotify.last_segment (Spotify.pathname req) = "callback") :
  (Spotify.code_param req = None \/ Spotify.code_param req = Some "" ->
   Spotify.handler rt cfg req w
   = (Ret (Spotify.failure 400 "No authorization code provided"), w)) /\
  (forall c r tokenData,
      Spotify.code_param req = Some c -> c <> "" ->
      truthy (Spotify.codeVerifier (store w)) = true ->
      net rt (List.length (calls w))
          (Spotify.exchange_request cfg c (Spotify.codeVerifier (store w)))
      = Resolves r ->
      ok r = true ->
      json_body r = Some tokenData ->
      truthy tokenData = false ->
      Spotify.handler rt cfg req w
      = (Ret (Spotify.failure 500 "Failed to exchange authorization code for tokens"),
         sent (Spotify.exchange_request cfg c (Spotify.codeVerifier (store w))) w)).
Proof.
  split.
  - intros Hcode. apply handler_callback; [assumption..|].
    unfold Spotify.callback_route. destruct Hcode as [-> | ->]; reflexivity.
  - intros c r tokenData Hcode Hc Hv Hnet Hok Hjson Hfalsy.
    apply handler_callback; [assumption..|].
    unfold Spotify.callback_route. rewrite (code_present req c Hcode Hc).
    erewrite bind_Ret by reflexivity. rewrite Hv. cbn [negb]. rewrite Hcode.
    erewrite bind_Ret
      by (apply (exchange_succeeded rt cfg c _ w r tokenData); assumption).
    rewrite Hfalsy. reflexivity.
Qed.

(** [GET /callback] without a code while "verifier" is pending. *)
Lemma X8_callback_turns_away_missing_code_and_empty_grant_witness :
  Spotify.handler Demo.idle Demo.cfg
    {| Spotify.req_method := "GET"; Spotify.pathname := "/callback";
       Spotify.code_param := None; Spotify.req_json := None |}
    (Demo.world0 Demo.awaiting_callback)
  = (Ret (Spotify.failure 400 "No authorization code provided"),
     Demo.world0 Demo.awaiting_callback).
Proof.
  destruct (X8_callback_turns_away_missing_code_and_empty_grant Demo.idle Demo.cfg
              {| Spotify.req_method := "GET"; Spotify.pathname := "/callback";
                 Spotify.code_param := None; Spotify.req_json := None |}
              (Demo.world0 Demo.awaiting_callback) eq_refl eq_refl)
    as [Hnocode _].
  apply Hnocode. left. reflexivity.
Defined.

(** ** Refreshing and polling *)

Section Polling.
Variable rt : Runtime.
Variable cfg : Spotify.Config.

Lemma poll_failed (w w1 : World Spotify.TokenStorage) (token : value) :
  Spotify.refreshSpotifyToken rt cfg w = (Ret token, w1) ->
  truthy token = true ->
  poll_fails (net rt (List.length (calls w1)) (Spotify.now_playing_request token)) = true ->
  exists w',
    Spotify.getCurrentlyPlaying rt cfg w = (Ret VNull, w') /\
    store w' = store w1 /\
    calls w' = (calls w1 ++ [Spotify.now_playing_request token])%list.
Proof.
  intros Hrefresh Htoken Hfail. unfold Spotify.getCurrentlyPlaying.
  erewrite bind_Ret by exact Hrefresh. rewrite Htoken. cbn [negb].
  unfold_monad. cbn [calls].
  destruct (net rt _ _) as [|r]; [eexists; split; [reflexivity|cbn; auto]|].
  cbn in Hfail. apply andb_true_iff in Hfail as [H204 Hrest].
  apply negb_true_iff in H204. rewrite H204.
  destruct (ok r); cbn in Hrest.
  - destruct (json_body r); [discriminate|].
    eexists; split; [reflexivity|cbn; auto].
  - destruct (text_body r); eexists; (split; [reflexivity|cbn; auto]).
Qed.

Lemma track_of_without_item (data : value) :
  nullish data = false ->
  nullish (opt_prop data "item") = true ->
  Spotify.track_of data = inr (track_without_item (opt_prop data "is_playing")).
Proof.
  intros Hdata Hitem. unfold Spotify.track_of.
  rewrite (get_prop_present _ _ Hdata).
  unfold Spotify.artist_names, Spotify.album_art_url. rewrite Hitem.
  destruct (opt_prop data "item"); try discriminate; reflexivity.
Qed.

Lemma track_of_without_artists (data : value) :
  nullish (opt_prop data "item") = false ->
  is_array (opt_prop (opt_prop data "item") "artists") = false ->
  exists e, Spotify.track_of data = inl e.
Proof.
  intros Hitem Hartists. unfold Spotify.track_of.
  destruct (get_prop data "is_playing") as [e|is_playing]; [eauto|].
  unfold Spotify.artist_names. rewrite Hitem.
  rewrite (get_prop_present _ _ Hitem).
  destruct (opt_prop (opt_prop data "item") "artists"); try discriminate; eauto.
Qed.
End Polling.



(** X10 ([getCurrentlyPlaying], no token to be had).  When the stored
    access token is not valid and either no refresh token is stored or
    the refresh fails, the poll returns [null] with the store unchanged,
    and the now-playing endpoint is never contacted: no request leaves
    in the first case, only the refresh request in the second. *)
Theorem X10_poll_without_token_contacts_no_player
  (rt : Runtime) (cfg : Spotify.Config) (w : World Spotify.TokenStorage)
  (Hinvalid : token_valid rt w = false) :
  (truthy (Spotify.refreshToken (store w)) = false ->
   exists w',
     Spotify.getCurrentlyPlaying rt cfg w = (Ret VNull, w') /\
     store w' = store w /\ calls w' = calls w) /\
  (truthy (Spotify.refreshToken (store w)) = true ->
   request_fails
     (net rt (List.length (calls w))
          (Spotify.refresh_request rt cfg (Spotify.refreshToken (store w)))) = true ->
   exists w',
     Spotify.getCurrentlyPlaying rt cfg w = (Ret VNull, w') /\
     store w' = store w /\
     calls w' = (calls w ++ [Spotify.refresh_request rt cfg
                               (Spotify.refreshToken (store w))])%list).
Proof.
  destruct (store_after_validity_test w) as (Hs & Hc & _). split.
  - intros Hr. eexists. split.
    + eapply poll_unauthenticated;
        [apply refresh_unauthenticated; assumption|reflexivity].
    + cbn. auto.
  - intros Hr Hfail.
    destruct (refresh_failed rt cfg w Hinvalid Hr Hfail) as [line Hrun].
    eexists. split.
    + eapply poll_unauthenticated; [exact Hrun|reflexivity].
    + cbn. rewrite Hs, Hc. auto.
Qed.

(** The empty store: the poll gives up at once. *)
Lemma X10_poll_without_token_contacts_no_player_witness :
  exists w',
    Spotify.getCurrentlyPlaying Demo.idle Demo.cfg (Demo.world0 Spotify.tokenStorage0)
    = (Ret VNull, w') /\
    store w' = Spotify.tokenStorage0 /\ calls w' = [].
Proof.
  destruct (X10_poll_without_token_contacts_no_player Demo.idle Demo.cfg
              (Demo.world0 Spotify.tokenStorage0) eq_refl) as [Hnone _].
  apply Hnone. reflexivity.
Defined.

(** X11 ([getCurrentlyPlaying], a poll that fails).  With a token in
    hand, if the now-playing request is rejected by the transport, or is
    answered with a status that is neither 204 nor 2xx, or is answered
    2xx with a body that cannot be read as JSON, the poll returns [null]:
    it does not throw, it has sent exactly that one request, and the
    token store is as the token refresh left it. *)
Theorem X11_poll_failure_returns_null
  (rt : Runtime) (cfg : Spotify.Config)
  (w w1 : World Spotify.TokenStorage) (token : value)
  (Hrefresh : Spotify.refreshSpotifyToken rt cfg w = (Ret token, w1))
  (Htoken : truthy token = true)
  (Hfail : poll_fails (net rt (List.length (calls w1))
                           (Spotify.now_playing_request token)) = true) :
  exists w',
    Spotify.getCurrentlyPlaying rt cfg w = (Ret VNull, w') /\
    store w' = store w1 /\
    calls w' = (calls w1 ++ [Spotify.now_playing_request token])%list.
Proof.
  destruct (poll_failed rt cfg w w1 token Hrefresh Htoken Hfail)
    as (w' & Hrun & Hstore & Hcalls).
  exists w'. split; [exact Hrun|]. split; assumption.
Qed.

(** A valid token while the network is down. *)
Lemma X11_poll_failure_returns_null_witness :
  exists w',
    Spotify.getCurrentlyPlaying Demo.offline Demo.cfg
                                (Demo.world0 (Demo.authenticated 5000))
    = (Ret VNull, w') /\
    store w' = Demo.authenticated 5000 /\
    calls w' = [Spotify.now_playing_request (VStr "tok")].
Proof.
  apply (X11_poll_failure_returns_null Demo.offline Demo.cfg
           (Demo.world0 (Demo.authenticated 5000))
           (tick (Demo.world0 (Demo.authenticated 5000))) (VStr "tok")
           eq_refl eq_refl eq_refl).
Defined.

(** X12 ([getCurrentlyPlaying], HTTP 200 without a usable item).  With a
    token in hand and a 200 answer whose body is [data]: if [data.item]
    is [null] or missing, the poll returns a track whose [isPlaying] is
    [data.is_playing] and whose other six fields are all [undefined];
    if [data.item] is present but its [artists] is not an array, the
    poll returns [null]. *)
Theorem X12_poll_200_without_item_or_artists
  (rt : Runtime) (cfg : Spotify.Config)
  (w w1 : World Spotify.TokenStorage) (token : value)
  (r : HttpResponse) (data : value)
  (Hrefresh : Spotify.refreshSpotifyToken rt cfg w = (Ret token, w1))
  (Htoken : truthy token = true)
  (Hnet : net rt (List.length (calls w1)) (Spotify.now_playing_request token)
          = Resolves r)
  (Hstatus : status r = 200)
  (Hbody : json_body r = Some data)
  (Hdata : nullish data = false) :
  (nullish (opt_prop data "item") = true ->
   exists w',
     Spotify.getCurrentlyPlaying rt cfg w
     = (Ret (track_without_item (opt_prop data "is_playing")), w')) /\
  (nullish (opt_prop data "item") = false ->
   is_array (opt_prop (opt_prop data "item") "artists") = false ->
   exists w', Spotify.getCurrentlyPlaying rt cfg w = (Ret VNull, w')).
Proof.
  pose proof (poll_200 rt cfg w w1 token r data Hrefresh Htoken Hnet Hstatus Hbody)
    as Hrun.
  split.
  - intros Hitem. rewrite (track_of_without_item data Hdata Hitem) in Hrun.
    eexists. exact Hrun.
  - intros Hitem Hartists.
    destruct (track_of_without_artists data Hitem Hartists) as [e He].
    rewrite He in Hrun. eexists. exact Hrun.
Qed.



(** An advertisement is playing: the item is [null]. *)
Lemma X12_poll_200_without_item_or_artists_witness :
  exists w',
    Spotify.getCurrentlyPlaying Scenes.advert Demo.cfg
                                (Demo.world0 (Demo.authenticated 5000))
    = (Ret (track_without_item (VBool true)), w').
Proof.
  destruct (X12_poll_200_without_item_or_artists Scenes.advert Demo.cfg
              (Demo.world0 (Demo.authenticated 5000))
              (tick (Demo.world0 (Demo.authenticated 5000))) (VStr "tok")
              (Demo.json_response 200 Scenes.advert_body) Scenes.advert_body
              eq_refl eq_refl eq_refl eq_refl eq_refl eq_refl) as [Hnone _].
  apply Hnone. reflexivity.
Defined.

(** ** The status shown *)

Section StatusShown.
Variable rt : Runtime.
Variable cfg : Spotify.Config.


Lemma updateStatus_run (trackInfo : value) (w : World Spotify.TokenStorage) :
  Spotify.SLACK_TOKEN cfg <> "" ->
  exists w',
    Spotify.updateStatus rt cfg trackInfo w
    = (Ret (platform_accepts
              (net rt (List.length (calls w))
                   (Slack.setStatus_request (Spotify.SLACK_TOKEN cfg)
                                            (status_shown trackInfo)))),
       w') /\
    calls w' = (calls w ++ [Slack.setStatus_request (Spotify.SLACK_TOKEN cfg)
                                                    (status_shown trackInfo)])%list /\
    store w' = store w.
Proof.
  intros Htoken. unfold Spotify.updateStatus, status_shown.
  apply String.eqb_neq in Htoken. rewrite Htoken.
  destruct (truthy (js_and (opt_prop trackInfo "isPlaying")
                           (opt_prop trackInfo "trackName"))) eqn:Hcond.
  - assert (Hpresent : nullish trackInfo = false).
    { destruct trackInfo; try reflexivity; discriminate Hcond. }
    rewrite !(get_prop_present _ _ Hpresent).
    match goal with
    | |- context [Slack.setStatus_request ?t ?st] =>
        destruct (updateSlackStatus_run rt Spotify.TokenStorage st t w)
          as (w' & Hrun & Hcalls & Hstore)
    end.
    exists w'. split; [|split; assumption].
    apply try_catch_Ret.
    erewrite bind_Ret.
    2:{ erewrite bind_Ret by reflexivity. erewrite bind_Ret by reflexivity.
        reflexivity. }
    erewrite bind_Ret by exact Hrun. reflexivity.
  - destruct (updateSlackStatus_run rt Spotify.TokenStorage cleared_status
                (Spotify.SLACK_TOKEN cfg) w) as (w' & Hrun & Hcalls & Hstore).
    exists w'. split; [|split; assumption].
    apply try_catch_Ret.
    erewrite bind_Ret by reflexivity.
    erewrite bind_Ret by exact Hrun. reflexivity.
Qed.
End StatusShown.



(** ** The default route and the periodic update *)

Section PollAndPublish.
Variable rt : Runtime.
Variable cfg : Spotify.Config.
Hypothesis Hslack : Spotify.SLACK_TOKEN cfg <> "".

Local Abbreviation token := (Spotify.SLACK_TOKEN cfg).

Lemma default_route_after_failed_poll (w w1 : World Spotify.TokenStorage) :
  Spotify.getCurrentlyPlaying rt cfg (said Log "Spotify tracker function called" w)
  = (Ret VNull, w1) ->
  exists w',
    Spotify.default_route rt cfg w
    = (Ret {| Spotify.res_status := 200;
              Spotify.res_body :=
                poll_report Spotify.not_playing
                  (platform_accepts
                     (net rt (List.length (calls w1))
                          (Slack.setStatus_request token cleared_status)))
                  false |},
       w') /\
    calls w' = (calls w1 ++ [Slack.setStatus_request token cleared_status])%list /\
    store w' = store w1.
Proof.
  intros Hpoll.
  destruct (updateStatus_run rt cfg Spotify.not_playing w1 Hslack)
    as (w' & Hrun & Hcalls & Hstore).
  exists w'. split; [|split; assumption].
  unfold Spotify.default_route.
  erewrite bind_Ret by reflexivity.
  erewrite bind_Ret by exact Hpoll.
  cbn [is_null negb].
  erewrite bind_Ret.
  2:{ erewrite bind_Ret by exact Hrun. reflexivity. }
  reflexivity.
Qed.


End PollAndPublish.

(** X15 ([handler], the default route, after a poll that came back
    empty).  When the poll returns [null] (no token, a failed refresh, a
    failed or malformed answer), the default route still sends one
    status update to Slack, the cleared status, and nothing else; it
    answers 200 with [currentlyPlaying: { isPlaying: false }],
    [slackUpdated.status] telling whether Slack accepted the update, and
    [slackUpdated.photo: false].  The store is as the poll left it. *)
Theorem X15_default_route_clears_status_after_failed_poll
  (rt : Runtime) (cfg : Spotify.Config)
  (req : Spotify.Request) (w w1 : World Spotify.TokenStorage)
  (Hroute : default_routed req = true)
  (Hslack : Spotify.SLACK_TOKEN cfg <> "")
  (Hpoll : Spotify.getCurrentlyPlaying rt cfg
             (said Log "Spotify tracker function called" w) = (Ret VNull, w1)) :
  exists w',
    Spotify.handler rt cfg req w
    = (Ret {| Spotify.res_status := 200;
              Spotify.res_body :=
                poll_report (VObj [("isPlaying", VBool false)])
                  (platform_accepts
                     (net rt (List.length (calls w1))
                          (Slack.setStatus_request (Spotify.SLACK_TOKEN cfg)
                                                   cleared_status)))
                  false |},
       w') /\
    calls w' = (calls w1 ++ [Slack.setStatus_request (Spotify.SLACK_TOKEN cfg)
                                                     cleared_status])%list /\
    store w' = store w1.
Proof.
  destruct (default_route_after_failed_poll rt cfg Hslack w w1 Hpoll)
    as (w' & Hrun & Hcalls & Hstore).
  exists w'. split; [|split; assumption].
  apply handler_default; assumption.
Qed.

(** [GET /] on the empty store: nothing is polled, and the status is
    cleared all the same. *)
Lemma X15_default_route_clears_status_after_failed_poll_witness :
  exists w',
    Spotify.handler Demo.idle Demo.cfg Demo.root_request
                    (Demo.world0 Spotify.tokenStorage0)
    = (Ret {| Spotify.res_status := 200;
              Spotify.res_body :=
                poll_report (VObj [("isPlaying", VBool false)]) true false |},
       w') /\
    calls w' = [Slack.setStatus_request "xoxp-token" cleared_status].
Proof.
  destruct (X15_default_route_clears_status_after_failed_poll Demo.idle Demo.cfg
              Demo.root_request (Demo.world0 Spotify.tokenStorage0)
              (said Error "No refresh token available"
                    (said Log "Spotify tracker function called"
                          (Demo.world0 Spotify.tokenStorage0)))
              eq_refl ltac:(discriminate) eq_refl)
    as (w' & Hrun & Hcalls & _).
  exists w'. split; [exact Hrun|exact Hcalls].
Defined.



(** X17 ([updateSpotifyStatus], nothing to publish).  The periodic
    update sends nothing to Slack and changes nothing in the store when
    no refresh token is stored (it does not even poll, whatever access
    token is stored) and, after polling, when the poll returned [null]
    or a track that is not playing, such as a paused one: the status
    shown on Slack is then left as it is. *)
Theorem X17_tick_publishes_nothing_unless_playing
  (rt : Runtime) (cfg : Spotify.Config) (w : World Spotify.TokenStorage) :
  (truthy (Spotify.refreshToken (store w)) = false ->
   exists w',
     Spotify.updateSpotifyStatus rt cfg w = (Ret tt, w') /\
     calls w' = calls w /\ store w' = store w) /\
  (forall trackInfo w1,
      truthy (Spotify.refreshToken (store w)) = true ->
      Spotify.getCurrentlyPlaying rt cfg w = (Ret trackInfo, w1) ->
      trackInfo = VNull \/
      (exists props, trackInfo = VObj props /\ truthy (assoc "isPlaying" props) = false) ->
      exists w',
        Spotify.updateSpotifyStatus rt cfg w = (Ret tt, w') /\
        calls w' = calls w1 /\ store w' = store w1).
Proof.
  split.
  - intros Hr. eexists. split.
    + unfold Spotify.updateSpotifyStatus.
      erewrite bind_Ret by reflexivity. rewrite Hr. reflexivity.
    + cbn. auto.
  - intros trackInfo w1 Hr Hpoll Hquiet.
    destruct Hquiet as [-> | (props & -> & Hpaused)]; eexists; split.
    + unfold Spotify.updateSpotifyStatus.
      erewrite bind_Ret by reflexivity. rewrite Hr. cbn [negb].
      apply try_catch_Ret.
      erewrite bind_Ret by exact Hpoll. reflexivity.
    + cbn. auto.
    + unfold Spotify.updateSpotifyStatus.
      erewrite bind_Ret by reflexivity. rewrite Hr. cbn [negb].
      apply try_catch_Ret.
      erewrite bind_Ret by exact Hpoll.
      cbn [is_null]. erewrite bind_Ret by reflexivity.
      cbn [get_prop]. rewrite Hpaused. reflexivity.
    + cbn. auto.
Qed.

(** The periodic update on a store that holds a valid access token but
    no refresh token. *)
Lemma X17_tick_publishes_nothing_unless_playing_witness :
  exists w',
    Spotify.updateSpotifyStatus Demo.playing Demo.cfg
      (Demo.world0 (Spotify.set_refreshToken VNull (Demo.authenticated 5000)))
    = (Ret tt, w') /\
    calls w' = [].
Proof.
  destruct (X17_tick_publishes_nothing_unless_playing Demo.playing Demo.cfg
              (Demo.world0 (Spotify.set_refreshToken VNull (Demo.authenticated 5000))))
    as [Hnone _].
  destruct (Hnone eq_refl) as (w' & Hrun & Hcalls & _).
  exists w'. split; [exact Hrun|exact Hcalls].
Defined.



(** ** Nothing escapes: the routes and the periodic update always return *)

Section AlwaysReturns.
Variable rt : Runtime.
Variable cfg : Spotify.Config.

Lemma keeps_session_refl (s : Spotify.TokenStorage) : keeps_session s s.
Proof. split; auto. Qed.

Lemma keeps_session_trans (s1 s2 s3 : Spotify.TokenStorage) :
  keeps_session s1 s2 -> keeps_session s2 s3 -> keeps_session s1 s3.
Proof. intros [A B] [C D]. split; [congruence|auto]. Qed.

Lemma keeps_session_last_played (v : value) (s : Spotify.TokenStorage) :
  keeps_session s (Spotify.set_lastPlayedTrack v s).
Proof. split; auto. Qed.

Lemma refresh_returns (w : World Spotify.TokenStorage) :
  exists v w',
    Spotify.refreshSpotifyToken rt cfg w = (Ret v, w') /\
    keeps_session (store w) (store w').
Proof.
  unfold Spotify.refreshSpotifyToken, Spotify.token_still_valid, keeps_session.
  unfold_monad.
  repeat case_step; eexists _, _; (split; [reflexivity|]); cbn; auto.
Qed.

Lemma track_of_object (data track : value) :
  Spotify.track_of data = inr track -> exists props, track = VObj props.
Proof.
  unfold Spotify.track_of. repeat case_step; intros H; try discriminate.
  injection H as <-. eauto.
Qed.

Lemma poll_returns (w : World Spotify.TokenStorage) :
  exists trackInfo w',
    Spotify.getCurrentlyPlaying rt cfg w = (Ret trackInfo, w') /\
    (trackInfo = VNull \/ exists props, trackInfo = VObj props) /\
    keeps_session (store w) (store w').
Proof.
  destruct (refresh_returns w) as (token & w1 & Hrefresh & Hkeeps).
  unfold Spotify.getCurrentlyPlaying.
  erewrite bind_Ret by exact Hrefresh.
  destruct (truthy token); cbn [negb];
    [|eexists _, _; split; [reflexivity|split; [auto|exact Hkeeps]]].
  unfold_monad. cbn [calls].
  destruct (net rt _ _) as [|r];
    [eexists _, _; split; [reflexivity|split; [auto|exact Hkeeps]]|].
  destruct (status r =? 204);
    [eexists _, _; split; [reflexivity|split; [unfold Spotify.not_playing; eauto|exact Hkeeps]]|].
  destruct (ok r).
  - destruct (json_body r) as [data|];
      [|eexists _, _; split; [reflexivity|split; [auto|exact Hkeeps]]].
    destruct (Spotify.track_of data) as [e|track] eqn:Htrack;
      [eexists _, _; split; [reflexivity|split; [auto|exact Hkeeps]]|].
    destruct (track_of_object data track Htrack) as [props ->].
    eexists _, _; split; [reflexivity|split; [eauto|exact Hkeeps]].
  - destruct (text_body r);
      eexists _, _; (split; [reflexivity|split; [auto|exact Hkeeps]]).
Qed.





Lemma tick_returns (w : World Spotify.TokenStorage) :
  exists w',
    Spotify.updateSpotifyStatus rt cfg w = (Ret tt, w') /\
    keeps_session (store w) (store w').
Proof.
  unfold Spotify.updateSpotifyStatus.
  erewrite bind_Ret by reflexivity.
  destruct (truthy (Spotify.refreshToken (store w))); cbn [negb];
    [|eexists; split; [reflexivity|apply keeps_session_refl]].
  destruct (poll_returns w) as (trackInfo & w1 & Hpoll & Hshape & Hkeeps).
  destruct Hshape as [-> | [props ->]].
  - eexists. split.
    + apply try_catch_Ret. erewrite bind_Ret by exact Hpoll. reflexivity.
    + cbn [store]. exact Hkeeps.
  - destruct (truthy (assoc "isPlaying" props)) eqn:Hplaying.
    2:{ eexists. split.
        - apply try_catch_Ret. erewrite bind_Ret by exact Hpoll.
          cbn [is_null]. erewrite bind_Ret by reflexivity.
          cbn [get_prop]. rewrite Hplaying. reflexivity.
        - cbn [store]. exact Hkeeps. }
    destruct (updateStatus_total rt cfg (VObj props) w1) as (b & w2 & Hs & (S2 & _)).
    destruct (truthy (assoc "albumArtUrl" props)) eqn:Hart.
    + match type of Hs with
      | _ = (Ret ?b0, _) =>
          destruct (updateSlackPhoto_total rt (assoc "albumArtUrl" props)
                      (Spotify.SLACK_TOKEN cfg)
                      (said Log ("Slack status update: "
                                 ++ (if b0 then "success" else "failed")) w2))
            as (b3 & w3 & Hp & (S3 & _))
      end.
      eexists. split.
      * apply try_catch_Ret. erewrite bind_Ret by exact Hpoll.
        cbn [is_null]. erewrite bind_Ret by reflexivity.
        cbn [get_prop]. rewrite Hplaying. cbn [negb].
        erewrite bind_Ret by exact Hs.
        erewrite bind_Ret by reflexivity.
        erewrite bind_Ret by reflexivity. rewrite Hart.
        erewrite bind_Ret.
        2:{ erewrite bind_Ret by exact Hp.
            erewrite bind_Ret by reflexivity. reflexivity. }
        erewrite bind_Ret by reflexivity.
        erewrite bind_Ret by reflexivity.
        reflexivity.
      * cbn [store]. rewrite S3. cbn [store said]. rewrite S2.
        eapply keeps_session_trans; [exact Hkeeps|apply keeps_session_last_played].
    + eexists. split.
      * apply try_catch_Ret. erewrite bind_Ret by exact Hpoll.
        cbn [is_null]. erewrite bind_Ret by reflexivity.
        cbn [get_prop]. rewrite Hplaying. cbn [negb].
        erewrite bind_Ret by exact Hs.
        erewrite bind_Ret by reflexivity.
        erewrite bind_Ret by reflexivity. rewrite Hart.
        erewrite bind_Ret by reflexivity.
        erewrite bind_Ret by reflexivity.
        erewrite bind_Ret by reflexivity.
        reflexivity.
      * cbn [store]. rewrite S2. exact Hkeeps.
Qed.
End AlwaysReturns.



(** X20 ([updateSpotifyStatus], every tick).  Whatever the store and
    whatever the network does, the periodic update returns normally:
    nothing is thrown into the timer that runs it.  It never touches the
    pending verifier, and a refresh token that was stored before the
    tick is still stored after it (a granted refresh may replace it, but
    never by an empty value). *)
Theorem X20_tick_always_returns_and_keeps_session
  (rt : Runtime) (cfg : Spotify.Config) (w : World Spotify.TokenStorage) :
  exists w',
    Spotify.updateSpotifyStatus rt cfg w = (Ret tt, w') /\
    Spotify.codeVerifier (store w') = Spotify.codeVerifier (store w) /\
    (truthy (Spotify.refreshToken (store w)) = true ->
     truthy (Spotify.refreshToken (store w')) = true).
Proof.
  destruct (tick_returns rt cfg w) as (w' & Hrun & Hverifier & Hrefresh).
  exists w'. split; [exact Hrun|]. split; assumption.
Qed.

(** ** Rotation mode: what a cycle publishes *)

Lemma index_at_in_range {A : Type} (l : list A) (i : Z) :
  0 <= i < len l -> exists x, index_at l i = Some x.
Proof.
  intros Hi. unfold index_at, len in *.
  replace (i <? 0) with false by (symmetry; apply Z.ltb_ge; lia).
  destruct (nth_error l (Z.to_nat i)) as [x|] eqn:Hnth; [eauto|].
  apply nth_error_None in Hnth. lia.
Qed.

Section RotationCycle.
Variable rt : Runtime.
Variable SLACK_APP_TOKEN : string.
Variable images : list string.
Variable statuses : list Slack.Status.

Local Abbreviation cycleProfile := (Rotation.cycleProfile rt SLACK_APP_TOKEN images statuses).
Local Abbreviation cycles := (Rotation.cycles rt SLACK_APP_TOKEN images statuses).

Lemma cycleProfile_publishes (fuel : nat) (w : World Rotation.Store) :
  images <> [] -> statuses <> [] ->
  (forall k, 0 <= rnd rt k (len images) < len images) ->
  rotation_inv statuses (store w) ->
  exists image status rest w',
    index_at images (rnd rt (random_draws w) (len images)) = Some image /\
    index_at statuses (Rotation.currentStatusIndex (store w)) = Some status /\
    cycleProfile (Datatypes.S fuel) w = (Ret tt, w') /\
    random_draws w' = Datatypes.S (random_draws w) /\
    calls w' = (calls w ++ Slack.image_request (VStr image)
                        :: Slack.setStatus_request SLACK_APP_TOKEN status
                        :: rest)%list /\
    rest = match image_blob (net rt (List.length (calls w))
                                 (Slack.image_request (VStr image))) with
           | Some blob => [Slack.setPhoto_request SLACK_APP_TOKEN blob]
           | None => []
           end /\
    Rotation.lastImageIndex (store w') = -1.
Proof.
  intros Hi Hs Hrange [Hlast Hcur].
  pose proof (len_nonempty _ Hi) as Hli. pose proof (len_nonempty _ Hs) as Hls.
  destruct (index_at_in_range images _ (Hrange (random_draws w))) as [image Himage].
  destruct (index_at_in_range statuses _ Hcur) as [status Hstatus].
  exists image, status.
  unfold Rotation.cycleProfile.
  replace ((len images =? 0) || (len statuses =? 0)) with false
    by (symmetry; apply orb_false_iff; split; apply Z.eqb_neq; lia).
  erewrite bind_Ret by reflexivity.
  erewrite bind_Ret.
  2:{ unfold Helper.getRandomIndex. cbn [Helper.draw_loop].
      unfold bind at 1. unfold random_below at 1.
      replace (rnd rt (random_draws w) (len images)
               =? Rotation.lastImageIndex (store w)) with false.
      - cbn. reflexivity.
      - symmetry. apply Z.eqb_neq. rewrite Hlast.
        specialize (Hrange (random_draws w)). lia. }
  unfold Rotation.image_value. rewrite Himage, Hstatus.
  erewrite bind_Ret by reflexivity.
  erewrite bind_Ret by (cbn [Slack.updateSlackStatus_start];
                        erewrite bind_Ret by reflexivity; reflexivity).
  cbn [calls store clock_reads random_draws console].
  match goal with
  | |- context [bind (Rotation.settle (Slack.updateSlackPhoto_resume rt ?i ?t ?o)) _ ?w0] =>
      destruct (updateSlackPhoto_resume_exact rt i t o w0) as (l1 & line1 & Hphoto);
      destruct (image_blob o) as [blob|] eqn:Hblob
  end.
  - erewrite bind_Ret by (unfold Rotation.settle; rewrite Hphoto; reflexivity).
    match goal with
    | |- context [bind (Rotation.settle (Slack.updateSlackStatus_resume (Some (?st, ?o)))) _ ?w0] =>
        destruct (updateSlackStatus_resume_exact st o w0) as (l2 & line2 & Hst)
    end.
    erewrite bind_Ret by (unfold Rotation.settle; rewrite Hst; reflexivity).
    cbn [Rotation.is_rejected].
    erewrite bind_Ret by reflexivity. erewrite bind_Ret by reflexivity.
    exists [Slack.setPhoto_request SLACK_APP_TOKEN blob]. eexists.
    split; [reflexivity|]. split; [reflexivity|].
    split; [reflexivity|]. cbn -[image_blob]. split; [reflexivity|].
    split; [rewrite <- !app_assoc; reflexivity|].
    split; [reflexivity|exact Hlast].
  - erewrite bind_Ret by (unfold Rotation.settle; rewrite Hphoto; reflexivity).
    match goal with
    | |- context [bind (Rotation.settle (Slack.updateSlackStatus_resume (Some (?st, ?o)))) _ ?w0] =>
        destruct (updateSlackStatus_resume_exact st o w0) as (l2 & line2 & Hst)
    end.
    erewrite bind_Ret by (unfold Rotation.settle; rewrite Hst; reflexivity).
    cbn [Rotation.is_rejected].
    erewrite bind_Ret by reflexivity. erewrite bind_Ret by reflexivity.
    exists []. eexists.
    split; [reflexivity|]. split; [reflexivity|].
    split; [reflexivity|]. cbn -[image_blob]. split; [reflexivity|].
    split; [rewrite <- !app_assoc; reflexivity|].
    split; [reflexivity|exact Hlast].
Qed.

Lemma cycles_cursor (fuel : nat) :
  images <> [] -> statuses <> [] ->
  (forall k, 0 <= rnd rt k (len images) < len images) ->
  forall (n : nat) (w : World Rotation.Store),
    rotation_inv statuses (store w) ->
    exists w',
      cycles (Datatypes.S fuel) n w = (Ret tt, w') /\
      rotation_inv statuses (store w') /\
      Rotation.currentStatusIndex (store w')
      = (Rotation.currentStatusIndex (store w) + Z.of_nat n) mod len statuses.
Proof.
  intros Hi Hs Hrange. pose proof (len_nonempty _ Hs) as Hls.
  induction n as [|n IH]; intros w [Hlast Hcur].
  - exists w. split; [reflexivity|]. split; [split; assumption|].
    rewrite Z.add_0_r, Z.mod_small by lia. reflexivity.
  - cbn [Rotation.cycles].
    destruct (cycleProfile_advances rt SLACK_APP_TOKEN images statuses
                fuel w Hi Hs Hrange Hlast Hcur) as (w1 & Hrun & Hnext & Hlast1).
    erewrite bind_Ret by exact Hrun.
    destruct (IH w1) as (w' & Hrest & Hinv & Hcursor).
    { split; [assumption|]. rewrite Hnext. apply Z.mod_pos_bound. lia. }
    exists w'. split; [exact Hrest|]. split; [exact Hinv|].
    rewrite Hcursor, Hnext, Zplus_mod_idemp_l.
    f_equal. lia.
Qed.
End RotationCycle.

(** X21 ([cycleProfile] of animate_profile_pic.ts, what is published).
    Over non-empty lists, with draws in [[0, images.length)], a cycle
    takes exactly one draw, requests the image at the drawn index and
    sends the status at the cursor, in that order, followed by the
    upload of the bytes of the image response when, and only when, that
    response came and its body could be read.  [lastImageIndex] is still the
    sentinel [-1] afterwards: the script never records what it selected,
    so the image of a cycle is the first draw whatever the previous
    cycle showed. *)
Theorem X21_cycleProfile_publishes_draw_and_cursor
  (rt : Runtime) (SLACK_APP_TOKEN : string)
  (images : list string) (statuses : list Slack.Status)
  (fuel : nat) (w : World Rotation.Store)
  (Himages : images <> [])
  (Hstatuses : statuses <> [])
  (Hrange : forall k, 0 <= rnd rt k (len images) < len images)
  (Hinv : rotation_inv statuses (store w)) :
  exists image status rest w',
    index_at images (rnd rt (random_draws w) (len images)) = Some image /\
    index_at statuses (Rotation.currentStatusIndex (store w)) = Some status /\
    Rotation.cycleProfile rt SLACK_APP_TOKEN images statuses (Datatypes.S fuel) w
    = (Ret tt, w') /\
    random_draws w' = Datatypes.S (random_draws w) /\
    calls w' = (calls w ++ Slack.image_request (VStr image)
                        :: Slack.setStatus_request SLACK_APP_TOKEN status
                        :: rest)%list /\
    rest = match image_blob (net rt (List.length (calls w))
                                 (Slack.image_request (VStr image))) with
           | Some blob => [Slack.setPhoto_request SLACK_APP_TOKEN blob]
           | None => []
           end /\
    Rotation.lastImageIndex (store w') = -1.
Proof.
  destruct (cycleProfile_publishes rt SLACK_APP_TOKEN images statuses fuel w
              Himages Hstatuses Hrange Hinv)
    as (image & status & rest & w' & H1 & H2 & H3 & H4 & H5 & H6 & H7).
  exists image, status, rest, w'. repeat (split; [assumption|]). assumption.
Qed.

(** Two images and one status; the first draw is 0, the image response
    has the empty body, and Slack accepts. *)
Lemma X21_cycleProfile_publishes_draw_and_cursor_witness :
  exists w',
    Rotation.cycleProfile Demo.idle "xoxp-token" ["a.png"; "b.png"]
                          [{| Slack.text := "X"; Slack.emoji := ":x:" |}] 1
                          (Demo.world0 Rotation.initial)
    = (Ret tt, w') /\
    calls w' = [Slack.image_request (VStr "a.png");
                Slack.setStatus_request "xoxp-token"
                  {| Slack.text := "X"; Slack.emoji := ":x:" |};
                Slack.setPhoto_request "xoxp-token" ""].
Proof.
  destruct (X21_cycleProfile_publishes_draw_and_cursor Demo.idle "xoxp-token"
              ["a.png"; "b.png"] [{| Slack.text := "X"; Slack.emoji := ":x:" |}]
              0%nat (Demo.world0 Rotation.initial))
    as (image & status & rest & w' & Himage & Hstatus & Hrun & _ & Hcalls & Hrest & _).
  - discriminate.
  - discriminate.
  - intros k. cbn. apply Z.mod_pos_bound. lia.
  - split; cbn; [reflexivity|lia].
  - injection Himage as <-. injection Hstatus as <-.
    exists w'. split; [exact Hrun|]. rewrite Hcalls, Hrest. reflexivity.
Defined.

(** X22 ([cycleProfile], the statuses in turn).  Over non-empty lists,
    after [n] cycles from the initial store the status cursor is
    [n mod statuses.length]: the statuses are shown round-robin, in the
    order of the list. *)
Theorem X22_cycles_show_statuses_round_robin
  (rt : Runtime) (SLACK_APP_TOKEN : string)
  (images : list string) (statuses : list Slack.Status) (fuel n : nat)
  (Himages : images <> [])
  (Hstatuses : statuses <> [])
  (Hrange : forall k, 0 <= rnd rt k (len images) < len images) :
  exists w',
    Rotation.cycles rt SLACK_APP_TOKEN images statuses (Datatypes.S fuel) n
                    (Demo.world0 Rotation.initial)
    = (Ret tt, w') /\
    Rotation.currentStatusIndex (store w') = Z.of_nat n mod len statuses.
Proof.
  pose proof (len_nonempty _ Hstatuses) as Hls.
  destruct (cycles_cursor rt SLACK_APP_TOKEN images statuses fuel
              Himages Hstatuses Hrange n (Demo.world0 Rotation.initial))
    as (w' & Hrun & _ & Hcursor).
  - split; cbn; [reflexivity|lia].
  - exists w'. split; [exact Hrun|]. rewrite Hcursor. reflexivity.
Qed.

(** Three statuses, five cycles: the cursor is at 2. *)
Lemma X22_cycles_show_statuses_round_robin_witness :
  exists w',
    Rotation.cycles Demo.offline "xoxp-token" ["a.png"]
      [{| Slack.text := "A"; Slack.emoji := ":a:" |};
       {| Slack.text := "B"; Slack.emoji := ":b:" |};
       {| Slack.text := "C"; Slack.emoji := ":c:" |}] 1 5
      (Demo.world0 Rotation.initial)
    = (Ret tt, w') /\
    Rotation.currentStatusIndex (store w') = 2.
Proof.
  destruct (X22_cycles_show_statuses_round_robin Demo.offline "xoxp-token" ["a.png"]
              [{| Slack.text := "A"; Slack.emoji := ":a:" |};
               {| Slack.text := "B"; Slack.emoji := ":b:" |};
               {| Slack.text := "C"; Slack.emoji := ":c:" |}] 0 5)
    as (w' & Hrun & Hcursor).
  - discriminate.
  - discriminate.
  - intros k. cbn. apply Z.mod_pos_bound. lia.
  - exists w'. split; [exact Hrun|]. rewrite Hcursor. reflexivity.
Defined.

(** ** utils.ts: the selector that remembers *)

(** More fuel does not change what a returning loop returns. *)
Lemma draw_loop_more_fuel (rt : Runtime) {S : Type} :
  forall f1 f2 (w0 wa : World S) n l a,
    (f1 <= f2)%nat ->
    Helper.draw_loop rt f1 n l w0 = (Ret a, wa) ->
    Helper.draw_loop rt f2 n l w0 = (Ret a, wa).
Proof.
  induction f1 as [|f1 IH]; intros f2 w0 wa n l a Hle Hrun; [discriminate|].
  destruct f2 as [|f2]; [lia|].
  cbn [Helper.draw_loop] in *. unfold bind, random_below in *.
  destruct ((rnd rt (random_draws w0) n =? l) && (1 <? n)).
  - eapply IH; [lia|exact Hrun].
  - exact Hrun.
Qed.

(** X23 ([getRandomIndex] of utils.ts, twice in a row).  Over an array
    of more than one element, two successive calls never return the same
    index: the second call avoids what the first one stored.  And if the
    generator never yields one value for ever, then with fuel enough
    both calls do return. *)
Theorem X23_successive_selections_differ
  (rt : Runtime) (array : list string) (w : World Z)
  (Hmany : 1 < len array) :
  (forall fuel1 fuel2 i j w1 w2,
      Utils.getRandomIndex rt fuel1 array w = (Ret i, w1) ->
      Utils.getRandomIndex rt fuel2 array w1 = (Ret j, w2) ->
      j <> i) /\
  ((forall d v, exists k, rnd rt (d + k) (len array) <> v) ->
   exists fuel i j w1 w2,
     Utils.getRandomIndex rt fuel array w = (Ret i, w1) /\
     Utils.getRandomIndex rt fuel array w1 = (Ret j, w2) /\
     j <> i).
Proof.
  assert (Hstep : forall fuel (w0 w1 : World Z) i,
             Utils.getRandomIndex rt fuel array w0 = (Ret i, w1) ->
             i <> store w0 /\ store w1 = i).
  { intros fuel w0 w1 i. unfold Utils.getRandomIndex, bind, get_store.
    destruct (Helper.draw_loop rt fuel (len array) (store w0) w0) as [[k| |] w'] eqn:Hloop;
      try discriminate.
    apply draw_loop_sound in Hloop as (_ & Hne & _).
    unfold modify_store, ret. intros H. injection H as <- <-. cbn. auto. }
  assert (Hruns : forall (w0 : World Z) k fuel,
             rnd rt (random_draws w0 + k) (len array) <> store w0 ->
             (k < fuel)%nat ->
             exists i w1, Utils.getRandomIndex rt fuel array w0 = (Ret i, w1)).
  { intros w0 k fuel Hne Hk. unfold Utils.getRandomIndex, bind, get_store.
    destruct (draw_loop_returns rt (len array) (store w0) Hmany fuel k w0 Hk Hne)
      as (k' & w' & Hloop & _).
    rewrite Hloop. eexists _, _. reflexivity. }
  split.
  - intros fuel1 fuel2 i j w1 w2 H1 H2.
    apply Hstep in H1 as [_ Hstored]. apply Hstep in H2 as [Hne _].
    rewrite Hstored in Hne. exact Hne.
  - intros Hfair.
    destruct (Hfair (random_draws w) (store w)) as [k1 Hk1].
    destruct (Hruns w k1 (Datatypes.S k1) Hk1 ltac:(lia)) as (i & w1 & H1).
    destruct (Hfair (random_draws w1) (store w1)) as [k2 Hk2].
    (* the fuel does not change what a returning call returns *)
    assert (Hsame : Utils.getRandomIndex rt (Datatypes.S (Nat.max k1 k2)) array w
                    = (Ret i, w1)).
    { revert H1. unfold Utils.getRandomIndex, bind, get_store.
      destruct (Helper.draw_loop rt (Datatypes.S k1) (len array) (store w) w)
        as [[a| |] wa] eqn:Hloop; try discriminate.
      rewrite (draw_loop_more_fuel rt (Datatypes.S k1) (Datatypes.S (Nat.max k1 k2))
                 w wa (len array) (store w) a ltac:(lia) Hloop).
      intros H. exact H. }
    destruct (Hruns w1 k2 (Datatypes.S (Nat.max k1 k2)) Hk2 ltac:(lia)) as (j & w2 & H2).
    exists (Datatypes.S (Nat.max k1 k2)), i, j, w1, w2.
    split; [exact Hsame|]. split; [exact H2|].
    apply Hstep in Hsame as [_ Hstored]. apply Hstep in H2 as [Hne _].
    rewrite Hstored in Hne. exact Hne.
Qed.

(** Two images, draws 0, 1, 0, 1, ...: the first call returns 0, the
    second 1. *)
Lemma X23_successive_selections_differ_witness :
  exists fuel i j w1 w2,
    Utils.getRandomIndex Demo.offline fuel ["a.png"; "b.png"] (Demo.world0 Utils.initial)
    = (Ret i, w1) /\
    Utils.getRandomIndex Demo.offline fuel ["a.png"; "b.png"] w1 = (Ret j, w2) /\
    j <> i.
Proof.
  destruct (X23_successive_selections_differ Demo.offline ["a.png"; "b.png"]
              (Demo.world0 Utils.initial)) as [_ Hruns].
  - cbn. lia.
  - apply Hruns. intros d v. cbn.
    destruct (Z.eq_dec (Z.of_nat (d + 0) mod 2) v) as [Heq|Hne].
    + exists 1%nat. rewrite <- Heq.
      replace (Z.of_nat (d + 1)) with (Z.of_nat (d + 0) + 1) by lia.
      generalize (Z.of_nat (d + 0)). intros z. Z.div_mod_to_equations. lia.
    + exists 0%nat. exact Hne.
Defined.

(** ** The first profile animation script *)

Section LegacyScript.
Variable rt : Runtime.
Variable SLACK_TOKEN : string.
Variable images : list string.
Variable statuses : list Slack.Status.

Local Abbreviation cycleProfile := (Legacy.cycleProfile rt SLACK_TOKEN images statuses).

Lemma legacy_photo_resume_exact (imageUrl : value) (o : FetchOutcome)
      (w : World Legacy.Store) :
  exists level line,
    Legacy.updateSlackPhoto_resume rt SLACK_TOKEN imageUrl o w
    = match Legacy.fetched_image o with
      | None => (Ret false, said level line w)
      | Some blob =>
          (Ret (platform_accepts
                  (net rt (List.length (calls w)) (Slack.setPhoto_request SLACK_TOKEN blob))),
           said level line (sent (Slack.setPhoto_request SLACK_TOKEN blob) w))
      end.
Proof.
  unfold Legacy.updateSlackPhoto_resume, said, sent. unfold_monad.
  destruct o as [|r]; cbn [Legacy.fetched_image]; [eexists _, _; reflexivity|].
  destruct (ok r); cbn [negb]; [|eexists _, _; reflexivity].
  destruct (blob_body r) as [blob|]; [|eexists _, _; reflexivity].
  cbn [calls].
  destruct (net rt _ _) as [|r2]; cbn [platform_accepts]; [eexists _, _; reflexivity|].
  destruct (json_body r2) as [data|]; [|eexists _, _; reflexivity].
  match goal with
  | |- context [Slack.check_ok data ?f ?w0] =>
      destruct (check_ok_passes_iff data f w0) as [Hyes Hno]
  end.
  destruct (truthy (opt_prop data "ok")).
  - rewrite (Hyes eq_refl). eexists _, _; reflexivity.
  - destruct (Hno eq_refl) as [e ->]. eexists _, _; reflexivity.
Qed.

Lemma legacy_status_resume_returns (p : option (Slack.Status * FetchOutcome))
      (w : World Legacy.Store) :
  exists b level line,
    Legacy.updateSlackStatus_resume p w = (Ret b, said level line w).
Proof.
  unfold Legacy.updateSlackStatus_resume, said. unfold_monad.
  destruct p as [[st [|r]]|]; try (eexists _, _, _; reflexivity).
  destruct (json_body r) as [data|]; [|eexists _, _, _; reflexivity].
  destruct (check_ok_passes_iff data "Failed to update status" w) as [Hyes Hno].
  destruct (truthy (opt_prop data "ok")).
  - rewrite (Hyes eq_refl). eexists _, _, _; reflexivity.
  - destruct (Hno eq_refl) as [e ->]. eexists _, _, _; reflexivity.
Qed.

Lemma utils_getRandomIndex_sound (fuel : nat) (array : list string)
      (w w1 : World Z) (i : Z) :
  Utils.getRandomIndex rt fuel array w = (Ret i, w1) ->
  (exists k, i = rnd rt k (len array)) /\
  (1 < len array -> i <> store w) /\
  store w1 = i /\ calls w1 = calls w.
Proof.
  unfold Utils.getRandomIndex, bind, get_store.
  destruct (Helper.draw_loop rt fuel (len array) (store w) w) as [[k| |] w'] eqn:Hloop;
    try discriminate.
  apply draw_loop_sound in Hloop as (Hk & Hne & _ & _ & Hcalls & _).
  unfold modify_store, ret. intros H. injection H as <- <-. cbn. auto.
Qed.

(** The rest of a cycle, once the index has been selected. *)
Lemma legacy_cycle_after_selection (fuel : nat) (w w1 : World Legacy.Store) (i : Z)
      (image : string) :
  images <> [] -> statuses <> [] ->
  0 <= Legacy.currentStatusIndex (store w) < len statuses ->
  Legacy.in_utils (Utils.getRandomIndex rt fuel images) w = (Ret i, w1) ->
  index_at images i = Some image ->
  exists w',
    cycleProfile fuel w = (Ret tt, w') /\
    Legacy.lastIndex (store w') = Legacy.lastIndex (store w1) /\
    Legacy.currentStatusIndex (store w')
    = (Legacy.currentStatusIndex (store w1) + 1) mod len statuses /\
    nth_error (calls w') (List.length (calls w1))
    = Some (Slack.image_request (VStr image)).
Proof.
  intros Hi Hs Hcur Hsel Himage.
  pose proof (len_nonempty _ Hi) as Hli. pose proof (len_nonempty _ Hs) as Hls.
  assert (Hcur1 : Legacy.currentStatusIndex (store w1) = Legacy.currentStatusIndex (store w)).
  { unfold Legacy.in_utils in Hsel.
    destruct (Utils.getRandomIndex rt fuel images _) as [o wz].
    injection Hsel as _ <-. reflexivity. }
  unfold Legacy.cycleProfile.
  replace ((len images =? 0) || (len statuses =? 0)) with false
    by (symmetry; apply orb_false_iff; split; apply Z.eqb_neq; lia).
  erewrite bind_Ret by exact Hsel.
  unfold Legacy.image_value. rewrite Himage.
  erewrite bind_Ret by reflexivity.
  destruct (index_at_in_range statuses (Legacy.currentStatusIndex (store w1)))
    as [status Hstatus]; [rewrite Hcur1; exact Hcur|].
  erewrite bind_Ret.
  2:{ unfold Legacy.updateSlackStatus_start.
      erewrite bind_Ret by reflexivity. cbn [store]. rewrite Hstatus.
      erewrite bind_Ret by reflexivity. reflexivity. }
  cbn [calls store clock_reads random_draws console].
  match goal with
  | |- context [bind (Rotation.settle (Legacy.updateSlackPhoto_resume rt _ ?u ?o)) _ ?w0] =>
      destruct (legacy_photo_resume_exact u o w0) as (l1 & line1 & Hphoto);
      destruct (Legacy.fetched_image o) as [blob|]
  end.
  - erewrite bind_Ret by (unfold Rotation.settle; rewrite Hphoto; reflexivity).
    match goal with
    | |- context [bind (Rotation.settle (Legacy.updateSlackStatus_resume ?p)) _ ?w0] =>
        destruct (legacy_status_resume_returns p w0) as (b2 & l2 & line2 & Hst)
    end.
    erewrite bind_Ret by (unfold Rotation.settle; rewrite Hst; reflexivity).
    cbn [Rotation.is_rejected].
    erewrite bind_Ret by reflexivity. erewrite bind_Ret by reflexivity.
    eexists. split; [reflexivity|]. cbn. split; [reflexivity|]. split.
    + apply Z.rem_mod_nonneg; lia.
    + rewrite <- !app_assoc. rewrite nth_error_app2 by lia.
      rewrite Nat.sub_diag. reflexivity.
  - erewrite bind_Ret by (unfold Rotation.settle; rewrite Hphoto; reflexivity).
    match goal with
    | |- context [bind (Rotation.settle (Legacy.updateSlackStatus_resume ?p)) _ ?w0] =>
        destruct (legacy_status_resume_returns p w0) as (b2 & l2 & line2 & Hst)
    end.
    erewrite bind_Ret by (unfold Rotation.settle; rewrite Hst; reflexivity).
    cbn [Rotation.is_rejected].
    erewrite bind_Ret by reflexivity. erewrite bind_Ret by reflexivity.
    eexists. split; [reflexivity|]. cbn. split; [reflexivity|]. split.
    + apply Z.rem_mod_nonneg; lia.
    + rewrite <- !app_assoc. rewrite nth_error_app2 by lia.
      rewrite Nat.sub_diag. reflexivity.
Qed.
End LegacyScript.

(** X24 ([updateSlackPhoto] of the first animation script).  The
    script's own photo update requests the image and gives up, with
    [false] and nothing sent to Slack, when that request fails, when the
    image response is not ok, or when its body cannot be read; otherwise
    it posts the bytes to [users.setPhoto] and returns [true] exactly
    when Slack answers with a JSON body whose [ok] is truthy.  It never
    throws and leaves the store alone. *)
Theorem X24_legacy_updateSlackPhoto_result
  (rt : Runtime) (SLACK_TOKEN : string) (imageUrl : value) (w : World Legacy.Store) :
  exists b w',
    Legacy.updateSlackPhoto rt SLACK_TOKEN imageUrl w = (Ret b, w') /\
    store w' = store w /\
    match Legacy.fetched_image
            (net rt (List.length (calls w)) (Slack.image_request imageUrl)) with
    | None =>
        b = false /\
        calls w' = (calls w ++ [Slack.image_request imageUrl])%list
    | Some blob =>
        b = platform_accepts
              (net rt (Datatypes.S (List.length (calls w)))
                   (Slack.setPhoto_request SLACK_TOKEN blob)) /\
        calls w' = (calls w ++ [Slack.image_request imageUrl;
                                Slack.setPhoto_request SLACK_TOKEN blob])%list
    end.
Proof.
  change (Legacy.updateSlackPhoto rt SLACK_TOKEN imageUrl w)
    with (Legacy.updateSlackPhoto_resume rt SLACK_TOKEN imageUrl
            (net rt (List.length (calls w)) (Slack.image_request imageUrl))
            (sent (Slack.image_request imageUrl) w)).
  destruct (legacy_photo_resume_exact rt SLACK_TOKEN imageUrl
              (net rt (List.length (calls w)) (Slack.image_request imageUrl))
              (sent (Slack.image_request imageUrl) w))
    as (level & line & Hrun).
  rewrite Hrun.
  destruct (Legacy.fetched_image _) as [blob|].
  - eexists _, _. split; [reflexivity|]. cbn [store said sent calls].
    split; [reflexivity|]. split.
    + rewrite length_app. cbn [List.length]. rewrite Nat.add_1_r. reflexivity.
    + rewrite <- app_assoc. reflexivity.
  - eexists _, _. split; [reflexivity|]. cbn. auto.
Qed.

(** X25 ([cycleProfile] of the first animation script, with
    [getRandomIndex] of utils.ts).  Over more than one image and a
    non-empty status list, with draws in [[0, images.length)]: a cycle
    that returns has selected an index of [images] different from the
    one selected by the previous cycle, has recorded it for the next
    cycle, has requested the image at that index first, and has moved
    the status cursor on by one modulo the number of statuses.  The
    cycle does return as soon as the generator yields a draw other than
    the previous index. *)
Theorem X25_legacy_cycle_never_repeats_image
  (rt : Runtime) (SLACK_TOKEN : string)
  (images : list string) (statuses : list Slack.Status) (w : World Legacy.Store)
  (Hmany : 1 < len images)
  (Hstatuses : statuses <> [])
  (Hrange : forall k, 0 <= rnd rt k (len images) < len images)
  (Hcursor : 0 <= Legacy.currentStatusIndex (store w) < len statuses) :
  (forall fuel w',
      Legacy.cycleProfile rt SLACK_TOKEN images statuses fuel w = (Ret tt, w') ->
      0 <= Legacy.lastIndex (store w') < len images /\
      Legacy.lastIndex (store w') <> Legacy.lastIndex (store w) /\
      (exists image,
          index_at images (Legacy.lastIndex (store w')) = Some image /\
          nth_error (calls w') (List.length (calls w))
          = Some (Slack.image_request (VStr image))) /\
      Legacy.currentStatusIndex (store w')
      = (Legacy.currentStatusIndex (store w) + 1) mod len statuses) /\
  (forall k fuel,
      rnd rt (random_draws w + k) (len images) <> Legacy.lastIndex (store w) ->
      (k < fuel)%nat ->
      exists w',
        Legacy.cycleProfile rt SLACK_TOKEN images statuses fuel w = (Ret tt, w')).
Proof.
  assert (Himages : images <> []).
  { intros ->. cbn in Hmany. lia. }
  assert (Hafter : forall fuel i w1,
             Legacy.in_utils (Utils.getRandomIndex rt fuel images) w = (Ret i, w1) ->
             exists w',
               Legacy.cycleProfile rt SLACK_TOKEN images statuses fuel w = (Ret tt, w') /\
               0 <= Legacy.lastIndex (store w') < len images /\
               Legacy.lastIndex (store w') <> Legacy.lastIndex (store w) /\
               (exists image,
                   index_at images (Legacy.lastIndex (store w')) = Some image /\
                   nth_error (calls w') (List.length (calls w))
                   = Some (Slack.image_request (VStr image))) /\
               Legacy.currentStatusIndex (store w')
               = (Legacy.currentStatusIndex (store w) + 1) mod len statuses).
  { intros fuel i w1 Hsel.
    assert (Hfacts : 0 <= i < len images /\ i <> Legacy.lastIndex (store w) /\
                     Legacy.lastIndex (store w1) = i /\ calls w1 = calls w /\
                     Legacy.currentStatusIndex (store w1)
                     = Legacy.currentStatusIndex (store w)).
    { unfold Legacy.in_utils in Hsel.
      destruct (Utils.getRandomIndex rt fuel images _) as [o wz] eqn:Hutils.
      injection Hsel as -> <-.
      apply utils_getRandomIndex_sound in Hutils as ((k & ->) & Hne & Hstored & Hcalls).
      cbn in *. repeat split; auto; apply Hrange. }
    destruct Hfacts as (Hin & Hne & Hlast & Hcalls & Hcur).
    destruct (index_at_in_range images i Hin) as [image Himage].
    destruct (legacy_cycle_after_selection rt SLACK_TOKEN images statuses fuel w w1 i image
                Himages Hstatuses Hcursor Hsel Himage)
      as (w' & Hrun & Hlast' & Hcur' & Hfirst).
    exists w'. split; [exact Hrun|].
    rewrite Hlast', Hlast, Hcur', Hcur, <- Hcalls.
    split; [exact Hin|]. split; [exact Hne|]. split; [eauto|reflexivity]. }
  split.
  - intros fuel w' Hrun.
    destruct (Legacy.in_utils (Utils.getRandomIndex rt fuel images) w)
      as [[i|e|] w1] eqn:Hsel.
    + destruct (Hafter fuel i w1 Hsel) as (w'' & Hrun' & Hfacts).
      rewrite Hrun' in Hrun. injection Hrun as <-. exact Hfacts.
    + exfalso. revert Hrun. unfold Legacy.cycleProfile.
      destruct ((len images =? 0) || (len statuses =? 0)) eqn:Hempty.
      * apply orb_true_iff in Hempty as [H|H]; apply Z.eqb_eq in H;
          pose proof (len_nonempty _ Hstatuses); lia.
      * unfold bind at 1. rewrite Hsel. discriminate.
    + exfalso. revert Hrun. unfold Legacy.cycleProfile.
      destruct ((len images =? 0) || (len statuses =? 0)) eqn:Hempty.
      * apply orb_true_iff in Hempty as [H|H]; apply Z.eqb_eq in H;
          pose proof (len_nonempty _ Hstatuses); lia.
      * unfold bind at 1. rewrite Hsel. discriminate.
  - intros k fuel Hne Hk.
    destruct (draw_loop_returns rt (len images) (Legacy.lastIndex (store w)) Hmany fuel k
                (mkWorld (Legacy.lastIndex (store w)) (clock_reads w) (random_draws w)
                         (calls w) (console w)) Hk Hne)
      as (k' & wz & Hloop & _).
    destruct (Hafter fuel (rnd rt k' (len images))
                (mkWorld {| Legacy.currentStatusIndex := Legacy.currentStatusIndex (store w);
                            Legacy.lastIndex := rnd rt k' (len images) |}
                         (clock_reads wz) (random_draws wz) (calls wz) (console wz)))
      as (w' & Hrun & _).
    + unfold Legacy.in_utils, Utils.getRandomIndex, bind, get_store.
      cbn [store]. rewrite Hloop. reflexivity.
    + exists w'. exact Hrun.
Qed.

(** Two images, one status, draws 0, 1, 0, 1, ...: the first cycle of
    the script selects index 0, the sentinel being [-1]. *)
Lemma X25_legacy_cycle_never_repeats_image_witness :
  exists w',
    Legacy.cycleProfile Demo.idle "xoxp-token" ["a.png"; "b.png"]
                        [{| Slack.text := "X"; Slack.emoji := ":x:" |}] 1
                        (Demo.world0 Legacy.initial)
    = (Ret tt, w').
Proof.
  destruct (X25_legacy_cycle_never_repeats_image Demo.idle "xoxp-token"
              ["a.png"; "b.png"] [{| Slack.text := "X"; Slack.emoji := ":x:" |}]
              (Demo.world0 Legacy.initial)) as [_ Hreturns].
  - cbn. lia.
  - discriminate.
  - intros k. cbn. apply Z.mod_pos_bound. lia.
  - cbn. lia.
  - apply (Hreturns 0%nat 1%nat); [vm_compute; discriminate|lia].
Defined.

(** X26 ([refreshSpotifyToken], a grant without a lifetime).  When the
    provider's answer to a refresh carries no [expires_in], the call still
    returns the new access token, but the expiry it stores is [NaN]: no
    clock ever finds the stored token valid, so every later call asks the
    provider again. *)
Theorem X26_grant_without_lifetime_is_never_valid
  (rt : Runtime) (cfg : Spotify.Config) (w : World Spotify.TokenStorage)
  (r : HttpResponse) (data : value)
  (Hinvalid : token_valid rt w = false)
  (Hrefresh : truthy (Spotify.refreshToken (store w)) = true)
  (Hnet : net rt (List.length (calls w))
              (Spotify.refresh_request rt cfg (Spotify.refreshToken (store w)))
          = Resolves r)
  (Hok : ok r = true)
  (Hjson : json_body r = Some data)
  (Hdata : nullish data = false)
  (Hlifetime : opt_prop data "expires_in" = VUndefined) :
  exists w',
    Spotify.refreshSpotifyToken rt cfg w = (Ret (opt_prop data "access_token"), w') /\
    Spotify.tokenExpiry (store w') = NaN /\
    truthy (Spotify.refreshToken (store w')) = true /\
    forall (rt' : Runtime) (w'' : World Spotify.TokenStorage),
      store w'' = store w' -> token_valid rt' w'' = false.
Proof.
  destruct (refresh_granted_run rt cfg w r data Hinvalid Hrefresh Hnet Hok Hjson Hdata)
    as (w' & Hrun & Hstore & _).
  assert (Hexpiry : Spotify.tokenExpiry (store w') = NaN).
  { rewrite Hstore. unfold refreshed. cbn [Spotify.tokenExpiry].
    rewrite Hlifetime. reflexivity. }
  exists w'. split; [exact Hrun|]. split; [exact Hexpiry|]. split.
  - rewrite Hstore. unfold refreshed, js_or. cbn [Spotify.refreshToken].
    destruct (truthy (opt_prop data "refresh_token")) eqn:Hnew; assumption.
  - intros rt' w'' Hsame. unfold token_valid. rewrite Hsame, Hexpiry.
    apply andb_false_r.
Qed.

(** A token that expired at 500 is refreshed at 1000 by a grant without
    [expires_in]. *)
Lemma X26_grant_without_lifetime_is_never_valid_witness :
  exists w',
    Spotify.refreshSpotifyToken Scenes.open_grant Demo.cfg
                                (Demo.world0 (Demo.authenticated 500))
    = (Ret (VStr "fresh"), w') /\
    token_valid Scenes.open_grant w' = false.
Proof.
  destruct (X26_grant_without_lifetime_is_never_valid Scenes.open_grant Demo.cfg
              (Demo.world0 (Demo.authenticated 500))
              (Demo.json_response 200 Scenes.grant_without_expiry)
              Scenes.grant_without_expiry
              eq_refl eq_refl eq_refl eq_refl eq_refl eq_refl eq_refl)
    as (w' & Hrun & _ & _ & Hnever).
  exists w'. split; [exact Hrun|]. apply Hnever. reflexivity.
Defined.

(** X27 (animate_profile_pic.ts, the callback of [serve]).  After [n]
    cycles over non-empty lists, a request other than OPTIONS is answered
    200 with a report in which [currentImage] is [undefined], since
    [lastImageIndex] is never assigned, and [currentStatus] is the status
    at [n mod statuses.length]: the one the next cycle will publish, not
    the one published last. *)
Theorem X27_monitor_reports_next_status_and_no_image
  (rt : Runtime) (SLACK_APP_TOKEN : string)
  (images : list string) (statuses : list Slack.Status) (fuel n : nat)
  (method : string)
  (Himages : images <> [])
  (Hstatuses : statuses <> [])
  (Hrange : forall k, 0 <= rnd rt k (len images) < len images)
  (Hmethod : method <> "OPTIONS") :
  exists w' next,
    Rotation.cycles rt SLACK_APP_TOKEN images statuses (Datatypes.S fuel) n
                    (Demo.world0 Rotation.initial)
    = (Ret tt, w') /\
    index_at statuses (Z.of_nat n mod len statuses) = Some next /\
    Monitor.serve images statuses method (store w')
    = {| Monitor.res_status := 200;
         Monitor.res_body :=
           VObj [("success", VBool true);
                 ("currentImage", VUndefined);
                 ("currentStatus", Monitor.status_value next);
                 ("totalImages", VNum (Fin (len images)));
                 ("totalStatuses", VNum (Fin (len statuses)));
                 ("interval", VNum (Fin 6000));
                 ("status", VStr "running")] |} /\
    (exists rest,
       (Rotation.cycles rt SLACK_APP_TOKEN images statuses (Datatypes.S fuel) 1 w')
       = (Ret tt, rest) /\
       exists image tail,
         calls rest = (calls w' ++ Slack.image_request (VStr image)
                         :: Slack.setStatus_request SLACK_APP_TOKEN next
                         :: tail)%list).
Proof.
  pose proof (len_nonempty _ Hstatuses) as Hls.
  destruct (cycles_cursor rt SLACK_APP_TOKEN images statuses fuel
              Himages Hstatuses Hrange n (Demo.world0 Rotation.initial))
    as (w' & Hrun & [Hlast Hcur] & Hcursor).
  { split; cbn; [reflexivity|lia]. }
  cbn [Demo.world0 store Rotation.initial Rotation.currentStatusIndex] in Hcursor.
  rewrite Z.add_0_l in Hcursor.
  destruct (cycleProfile_publishes rt SLACK_APP_TOKEN images statuses fuel w'
              Himages Hstatuses Hrange (conj Hlast Hcur))
    as (image & next & tail & rest & _ & Hnext & Hcycle & _ & Hcalls & _ & _).
  exists w', next. split; [exact Hrun|].
  split; [rewrite <- Hcursor; exact Hnext|]. split.
  - unfold Monitor.serve.
    destruct (String.eqb_spec method "OPTIONS") as [Heq|_]; [contradiction|].
    rewrite Hlast, Hnext. reflexivity.
  - exists rest. split.
    + cbn [Rotation.cycles]. erewrite bind_Ret by exact Hcycle. reflexivity.
    + exists image, tail. exact Hcalls.
Qed.

(** Three statuses, four cycles: a GET is told that status "B" is the
    current one, and no image. *)
Lemma X27_monitor_reports_next_status_and_no_image_witness :
  exists w',
    Rotation.cycles Demo.offline "xoxp-token" ["a.png"]
      [{| Slack.text := "A"; Slack.emoji := ":a:" |};
       {| Slack.text := "B"; Slack.emoji := ":b:" |};
       {| Slack.text := "C"; Slack.emoji := ":c:" |}] 1 4
      (Demo.world0 Rotation.initial)
    = (Ret tt, w') /\
    JS.assoc "currentStatus"
      match Monitor.res_body
              (Monitor.serve ["a.png"]
                 [{| Slack.text := "A"; Slack.emoji := ":a:" |};
                  {| Slack.text := "B"; Slack.emoji := ":b:" |};
                  {| Slack.text := "C"; Slack.emoji := ":c:" |}] "GET" (store w'))
      with VObj fields => fields | _ => [] end
    = VObj [("text", VStr "B"); ("emoji", VStr ":b:")].
Proof.
  destruct (X27_monitor_reports_next_status_and_no_image Demo.offline "xoxp-token"
              ["a.png"]
              [{| Slack.text := "A"; Slack.emoji := ":a:" |};
               {| Slack.text := "B"; Slack.emoji := ":b:" |};
               {| Slack.text := "C"; Slack.emoji := ":c:" |}] 0 4 "GET")
    as (w' & next & Hrun & Hnext & Hserve & _).
  - discriminate.
  - discriminate.
  - intros k. cbn. apply Z.mod_pos_bound. lia.
  - discriminate.
  - exists w'. split; [exact Hrun|]. rewrite Hserve.
    vm_compute in Hnext. injection Hnext as <-. reflexivity.
Defined.
